(** * Parking-spot marketplace backend: a shallow embedding of the routers

    The development follows the FastAPI backend under [backend/app]:

    - [models/models.py]            the enums and the request models;
    - [services/firebase_service.py] the document store adapter, three
      collections keyed by document id;
    - [routers/bookings_router.py]   the booking lifecycle handlers;
    - [routers/parking_spots_router.py] spot update/delete, the search
      with its four filters and its pagination, the nearby search and
      the Haversine distance.

    Modelling conventions.
    - A Python [float] is a real number ([R]); the rounding of the values
      is not modelled.  Where rounding decides whether a call raises (the
      square root of [calculate_distance]), the outcome is an argument of
      the handler.
    - A datetime that the store holds or that is only written to the store
      is its instant, an integer count of microseconds ([datetime], [Z]):
      Firestore stores a naive datetime as UTC and reads every datetime
      back as an aware one.  A datetime of a request that the code compares
      or subtracts is a [DateTime.t], naive or aware, and the comparison of
      a naive with an aware one is the [TypeError] of Python.
    - An exception that is not an [HTTPException] is caught by the
      handler's [except Exception] and answered with status 500.
    - A Firestore collection is a finite map from document id to document
      ([gmap string _]); a document is a record with one field per key.
    - A handler is a function from the store (and the request) to a pair of
      a response and the store after the call.  [HTTPException status] is
      the response of a [raise HTTPException(status_code=status)].
    - The values the handlers draw from their environment, the current time
      ([datetime.utcnow()]) and the id of a fresh document
      ([collection.document()]), are arguments of the handlers. *)

From Stdlib Require Import Reals Machin Lra ZArith Lia Sorted.
From stdpp Require Import gmap strings list fin_maps.

(** ** Decisions on real numbers, as the comparisons of Python floats *)

#[export] Instance R_eq_dec : EqDecision R := Req_dec_T.
#[export] Instance Rle_decision (x y : R) : Decision (x <= y)%R := Rle_dec x y.
#[export] Instance Rlt_decision (x y : R) : Decision (x < y)%R := Rlt_dec x y.

Definition datetime := Z.
Bind Scope Z_scope with datetime.

(** A Python [datetime] of a request: naive (no [tzinfo]) or aware.  The
    number is the count of microseconds of the wall clock, for a naive
    one, and of the UTC instant, for an aware one. *)
Module DateTime.
Inductive t :=
  | Naive (microseconds : Z)
  | Aware (microseconds : Z).

(** The instant that Firestore stores: a naive datetime is taken as UTC. *)
Definition instant (d : t) : datetime :=
  match d with Naive us | Aware us => us end.

Definition is_aware (d : t) : bool :=
  match d with Naive _ => false | Aware _ => true end.

(** [a < b]; [None] is the [TypeError] for a naive and an aware operand. *)
Definition lt (a b : t) : option bool :=
  match a, b with
  | Naive x, Naive y | Aware x, Aware y => Some (x <? y)%Z
  | _, _ => None
  end.

(** [a > b]. *)
Definition gt (a b : t) : option bool := lt b a.

(** [a - b], a [timedelta] in microseconds; [None] is the [TypeError]. *)
Definition sub (a b : t) : option Z :=
  match a, b with
  | Naive x, Naive y | Aware x, Aware y => Some (x - y)%Z
  | _, _ => None
  end.
End DateTime.

(** ** models/models.py *)

Inductive VehicleSize := compact | midsize | large | suv | any.

#[export] Instance VehicleSize_eq_dec : EqDecision VehicleSize.
Proof. solve_decision. Defined.

Inductive BookingStatus :=
  pending | approved | rejected | confirmed | completed | cancelled.

#[export] Instance BookingStatus_eq_dec : EqDecision BookingStatus.
Proof. solve_decision. Defined.

Inductive UserRole := finder | renter | both.

Module User.
Record t := mk {
    uid : string;
    email : string;
    name : string;
    phone_number : option string;
    profile_image_url : option string;
    role : UserRole;
    created_at : datetime;
    last_login_at : option datetime
  }.
End User.

(** A document of the [parking_spots] collection, with the keys that
    [create_parking_spot] writes. *)
Module Spot.
Record t := mk {
    id : string;
    address : string;
    latitude : R;
    longitude : R;
    hourly_rate : R;
    is_available : bool;
    availability_start : datetime;
    availability_end : datetime;
    max_vehicle_size : VehicleSize;
    description : string;
    image_url : option string;
    owner_id : string;
    owner_name : string;
    created_at : datetime;
    updated_at : datetime
  }.
End Spot.

(** The request model [ParkingSpotUpdate]: every field is optional. *)
Module ParkingSpotUpdate.
Record t := mk {
    address : option string;
    latitude : option R;
    longitude : option R;
    hourly_rate : option R;
    is_available : option bool;
    availability_start : option datetime;
    availability_end : option datetime;
    max_vehicle_size : option VehicleSize;
    description : option string;
    image_url : option string
  }.
End ParkingSpotUpdate.

(** The request model [BookingCreate]. *)
Module BookingCreate.
Record t := mk {
    spot_id : string;
    start_time : DateTime.t;
    end_time : DateTime.t;
    message : option string;
    finder_id : string;
    finder_name : string;
    finder_email : string
  }.
End BookingCreate.

(** A document of the [bookings] collection.  [owner_response] and
    [responded_at] are absent until a transition writes them. *)
Module Booking.
Record t := mk {
    id : string;
    spot_id : string;
    finder_id : string;
    finder_name : string;
    finder_email : string;
    start_time : datetime;
    end_time : datetime;
    total_amount : R;
    status : BookingStatus;
    message : option string;
    created_at : datetime;
    owner_response : option string;
    responded_at : option datetime
  }.
End Booking.

(** The dictionary [booking_dict] that [create_booking_request] builds: a
    booking document before the store has given it an id. *)
Module BookingDict.
Record t := mk {
    spot_id : string;
    finder_id : string;
    finder_name : string;
    finder_email : string;
    start_time : DateTime.t;
    end_time : DateTime.t;
    total_amount : R;
    status : BookingStatus;
    message : option string;
    created_at : datetime
  }.
End BookingDict.

(** The request model [ParkingSpotSearch]. *)
Module ParkingSpotSearch.
Record t := mk {
    latitude : option R;
    longitude : option R;
    radius : option R;
    max_price : option R;
    vehicle_size : option VehicleSize;
    start_time : option DateTime.t;
    end_time : option DateTime.t
  }.
End ParkingSpotSearch.

(** The request model [UserCreate]. *)
Module UserCreate.
Record t := mk {
    email : string;
    name : string;
    phone_number : option string;
    profile_image_url : option string;
    role : UserRole;
    firebase_uid : string
  }.
End UserCreate.

(** The request model [UserUpdate]: every field is optional. *)
Module UserUpdate.
Record t := mk {
    name : option string;
    phone_number : option string;
    profile_image_url : option string;
    role : option UserRole
  }.
End UserUpdate.

(** The request model [ParkingSpotCreate]. *)
Module ParkingSpotCreate.
Record t := mk {
    address : string;
    latitude : R;
    longitude : R;
    hourly_rate : R;
    is_available : bool;
    availability_start : datetime;
    availability_end : datetime;
    max_vehicle_size : VehicleSize;
    description : string;
    image_url : option string;
    owner_id : string;
    owner_name : string
  }.
End ParkingSpotCreate.

(** The dictionary [spot_dict] that [create_parking_spot] builds: a spot
    document before the store has given it an id. *)
Module SpotDict.
Record t := mk {
    address : string;
    latitude : R;
    longitude : R;
    hourly_rate : R;
    is_available : bool;
    availability_start : datetime;
    availability_end : datetime;
    max_vehicle_size : VehicleSize;
    description : string;
    image_url : option string;
    owner_id : string;
    owner_name : string;
    created_at : datetime;
    updated_at : datetime
  }.
End SpotDict.

(** ** HTTP outcomes *)

Definition HTTP_400_BAD_REQUEST : Z := 400.
Definition HTTP_401_UNAUTHORIZED : Z := 401.
Definition HTTP_409_CONFLICT : Z := 409.
Definition HTTP_403_FORBIDDEN : Z := 403.
Definition HTTP_404_NOT_FOUND : Z := 404.
Definition HTTP_422_UNPROCESSABLE_ENTITY : Z := 422.
Definition HTTP_500_INTERNAL_SERVER_ERROR : Z := 500.

Inductive Response (A : Type) :=
  | APIResponse (data : A)
  | HTTPException (status_code : Z).
Arguments APIResponse {A} data.
Arguments HTTPException {A} status_code.

(** ** services/firebase_service.py *)

Record Store := mkStore {
  users : gmap string User.t;
  parking_spots : gmap string Spot.t;
  bookings : gmap string Booking.t
}.

(** The dictionary [update_data] that a booking transition hands to
    [update_booking]: a key is either absent ([None]) or bound.  The key
    [owner_response] may be bound to Python's [None]. *)
Module BookingPatch.
Record t := mk {
    status : option BookingStatus;
    owner_response : option (option string);
    responded_at : option datetime
  }.
End BookingPatch.

(** The dictionary [update_data] of [update_parking_spot]. *)
Module SpotPatch.
Record t := mk {
    address : option string;
    latitude : option R;
    longitude : option R;
    hourly_rate : option R;
    is_available : option bool;
    availability_start : option datetime;
    availability_end : option datetime;
    max_vehicle_size : option VehicleSize;
    description : option string;
    image_url : option string;
    updated_at : option datetime
  }.
End SpotPatch.

(** Firestore's [update]: the keys of the dictionary overwrite the keys of
    the document, the other keys are kept. *)
Definition merge_booking (p : BookingPatch.t) (b : Booking.t) : Booking.t :=
  Booking.mk (Booking.id b) (Booking.spot_id b) (Booking.finder_id b)
    (Booking.finder_name b) (Booking.finder_email b)
    (Booking.start_time b) (Booking.end_time b) (Booking.total_amount b)
    (default (Booking.status b) (BookingPatch.status p))
    (Booking.message b) (Booking.created_at b)
    (default (Booking.owner_response b) (BookingPatch.owner_response p))
    (match BookingPatch.responded_at p with
     | Some t => Some t
     | None => Booking.responded_at b
     end).

Definition merge_spot (p : SpotPatch.t) (s : Spot.t) : Spot.t :=
  Spot.mk (Spot.id s)
    (default (Spot.address s) (SpotPatch.address p))
    (default (Spot.latitude s) (SpotPatch.latitude p))
    (default (Spot.longitude s) (SpotPatch.longitude p))
    (default (Spot.hourly_rate s) (SpotPatch.hourly_rate p))
    (default (Spot.is_available s) (SpotPatch.is_available p))
    (default (Spot.availability_start s) (SpotPatch.availability_start p))
    (default (Spot.availability_end s) (SpotPatch.availability_end p))
    (default (Spot.max_vehicle_size s) (SpotPatch.max_vehicle_size p))
    (default (Spot.description s) (SpotPatch.description p))
    (match SpotPatch.image_url p with
     | Some u => Some u
     | None => Spot.image_url s
     end)
    (Spot.owner_id s) (Spot.owner_name s) (Spot.created_at s)
    (default (Spot.updated_at s) (SpotPatch.updated_at p)).

(** The dictionary [update_data] that [update_user_profile] and
    [login_user] hand to [update_user]. *)
Module UserPatch.
Record t := mk {
    name : option string;
    phone_number : option string;
    profile_image_url : option string;
    role : option UserRole;
    last_login_at : option datetime
  }.
End UserPatch.

(** The dictionary has no key: [not update_data]. *)
Definition user_patch_is_empty (p : UserPatch.t) : bool :=
  match UserPatch.name p, UserPatch.phone_number p,
        UserPatch.profile_image_url p, UserPatch.role p,
        UserPatch.last_login_at p with
  | None, None, None, None, None => true
  | _, _, _, _, _ => false
  end.

Definition merge_user (p : UserPatch.t) (u : User.t) : User.t :=
  User.mk (User.uid u) (User.email u)
    (default (User.name u) (UserPatch.name p))
    (match UserPatch.phone_number p with
     | Some n => Some n
     | None => User.phone_number u
     end)
    (match UserPatch.profile_image_url p with
     | Some i => Some i
     | None => User.profile_image_url u
     end)
    (default (User.role u) (UserPatch.role p))
    (User.created_at u)
    (match UserPatch.last_login_at p with
     | Some t => Some t
     | None => User.last_login_at u
     end).

Module FirebaseService.

Definition get_parking_spot (db : Store) (spot_id : string) : option Spot.t :=
    parking_spots db !! spot_id.

  (** [where('is_available', '==', True).stream()]: the available
      documents, in the order the collection streams them. *)
Definition get_available_parking_spots (db : Store) : list Spot.t :=
    filter (λ s, Spot.is_available s = true)
           ((map_to_list (parking_spots db)).*2).

  (** [document(spot_id).update(spot_data)] raises when the document does
      not exist; the adapter turns every exception into [False]. *)
Definition update_parking_spot (db : Store) (spot_id : string)
      (spot_data : SpotPatch.t) : bool * Store :=
    match parking_spots db !! spot_id with
    | Some s =>
        (true, mkStore (users db)
                 (<[spot_id := merge_spot spot_data s]> (parking_spots db))
                 (bookings db))
    | None => (false, db)
    end.

  (** [document(spot_id).delete()] succeeds whether or not the document
      exists. *)
Definition delete_parking_spot (db : Store) (spot_id : string) : bool * Store :=
    (true, mkStore (users db) (delete spot_id (parking_spots db)) (bookings db)).

  (** [create_booking]: the fresh document reference [doc_ref] is an
      argument; its id is written into the document under the key [id].
      The two datetimes are stored as their instants. *)
Definition create_booking (db : Store) (doc_ref : string)
    (booking_data : BookingDict.t) : string * Store :=
  let doc :=
    Booking.mk doc_ref (BookingDict.spot_id booking_data)
      (BookingDict.finder_id booking_data)
      (BookingDict.finder_name booking_data)
      (BookingDict.finder_email booking_data)
      (DateTime.instant (BookingDict.start_time booking_data))
      (DateTime.instant (BookingDict.end_time booking_data))
      (BookingDict.total_amount booking_data)
      (BookingDict.status booking_data)
      (BookingDict.message booking_data)
      (BookingDict.created_at booking_data)
      None None in
  (doc_ref, mkStore (users db) (parking_spots db)
              (<[doc_ref := doc]> (bookings db))).

Definition get_booking (db : Store) (booking_id : string) : option Booking.t :=
    bookings db !! booking_id.

Definition update_booking (db : Store) (booking_id : string)
      (booking_data : BookingPatch.t) : bool * Store :=
    match bookings db !! booking_id with
    | Some b =>
        (true, mkStore (users db) (parking_spots db)
                 (<[booking_id := merge_booking booking_data b]> (bookings db)))
    | None => (false, db)
    end.

Definition delete_booking (db : Store) (booking_id : string) : bool * Store :=
    (true, mkStore (users db) (parking_spots db)
             (delete booking_id (bookings db))).

(** [create_user]: the document is addressed by the [uid] of the data. *)
Definition create_user (db : Store) (user_data : User.t) : string * Store :=
  (User.uid user_data,
   mkStore (<[User.uid user_data := user_data]> (users db))
     (parking_spots db) (bookings db)).

Definition get_user (db : Store) (uid : string) : option User.t :=
  users db !! uid.

Definition update_user (db : Store) (uid : string) (user_data : UserPatch.t)
    : bool * Store :=
  match users db !! uid with
  | Some u =>
      (true, mkStore (<[uid := merge_user user_data u]> (users db))
               (parking_spots db) (bookings db))
  | None => (false, db)
  end.

Definition delete_user (db : Store) (uid : string) : bool * Store :=
  (true, mkStore (delete uid (users db)) (parking_spots db) (bookings db)).

(** [create_parking_spot]: the fresh document reference [doc_ref] is an
    argument; its id is written into the document under the key [id]. *)
Definition create_parking_spot (db : Store) (doc_ref : string)
    (spot_data : SpotDict.t) : string * Store :=
  let doc :=
    Spot.mk doc_ref (SpotDict.address spot_data)
      (SpotDict.latitude spot_data) (SpotDict.longitude spot_data)
      (SpotDict.hourly_rate spot_data) (SpotDict.is_available spot_data)
      (SpotDict.availability_start spot_data)
      (SpotDict.availability_end spot_data)
      (SpotDict.max_vehicle_size spot_data)
      (SpotDict.description spot_data) (SpotDict.image_url spot_data)
      (SpotDict.owner_id spot_data) (SpotDict.owner_name spot_data)
      (SpotDict.created_at spot_data) (SpotDict.updated_at spot_data) in
  (doc_ref, mkStore (users db) (<[doc_ref := doc]> (parking_spots db))
              (bookings db)).

(** [where('owner_id', '==', owner_id).stream()]. *)
Definition get_parking_spots_by_owner (db : Store) (owner_id : string)
    : list Spot.t :=
  filter (λ s, Spot.owner_id s = owner_id)
         ((map_to_list (parking_spots db)).*2).

(** [where('finder_id', '==', user_id).stream()]. *)
Definition get_user_bookings (db : Store) (user_id : string) : list Booking.t :=
  filter (λ b, Booking.finder_id b = user_id)
         ((map_to_list (bookings db)).*2).

(** [get_pending_bookings_for_owner]: the ids are read from the key [id]
    of the owner's spot documents; one query per id, results appended. *)
Definition get_pending_bookings_for_owner (db : Store) (owner_id : string)
    : list Booking.t :=
  let spots := get_parking_spots_by_owner db owner_id in
  let spot_ids := Spot.id <$> spots in
  if decide (spot_ids = []) then []
  else
    spot_ids ≫= (λ spot_id,
      filter (λ b, Booking.spot_id b = spot_id ∧ Booking.status b = pending)
             ((map_to_list (bookings db)).*2)).

End FirebaseService.

(** ** routers/bookings_router.py *)

Module bookings_router.

(** [timedelta.total_seconds()] of a difference of two datetimes. *)
Definition total_seconds (delta : Z) : R := (IZR delta / 1000000)%R.

Definition create_booking_request (db : Store) (firebase_uid : string)
    (booking_data : BookingCreate.t) (doc_ref : string) (utcnow : datetime)
    : Response string * Store :=
  (* Verify the requester is the authenticated user *)
  if decide (BookingCreate.finder_id booking_data ≠ firebase_uid) then
    (HTTPException HTTP_403_FORBIDDEN, db)
  else
  (* Verify the parking spot exists and is available *)
  match FirebaseService.get_parking_spot db (BookingCreate.spot_id booking_data) with
  | None => (HTTPException HTTP_404_NOT_FOUND, db)
  | Some spot =>
    if negb (Spot.is_available spot) then
      (HTTPException HTTP_400_BAD_REQUEST, db)
    else
    (* Check if the requested time is within spot availability: the
       stored datetimes are aware, [or] evaluates its second operand only
       when the first is false *)
    let outside :=
      before ← DateTime.lt (BookingCreate.start_time booking_data)
                 (DateTime.Aware (Spot.availability_start spot));
      if before : bool then Some true
      else DateTime.gt (BookingCreate.end_time booking_data)
             (DateTime.Aware (Spot.availability_end spot)) in
    match outside with
    | None => (HTTPException HTTP_500_INTERNAL_SERVER_ERROR, db)
    | Some true => (HTTPException HTTP_400_BAD_REQUEST, db)
    | Some false =>
    (* Calculate total amount *)
    match DateTime.sub (BookingCreate.end_time booking_data)
            (BookingCreate.start_time booking_data) with
    | None => (HTTPException HTTP_500_INTERNAL_SERVER_ERROR, db)
    | Some delta =>
    let hours := (total_seconds delta / 3600)%R in
    let total_amount := (hours * Spot.hourly_rate spot)%R in
    let booking_dict :=
      BookingDict.mk (BookingCreate.spot_id booking_data)
        (BookingCreate.finder_id booking_data)
        (BookingCreate.finder_name booking_data)
        (BookingCreate.finder_email booking_data)
        (BookingCreate.start_time booking_data)
        (BookingCreate.end_time booking_data)
        total_amount pending
        (BookingCreate.message booking_data) utcnow in
    let '(booking_id, db') :=
      FirebaseService.create_booking db doc_ref booking_dict in
    (APIResponse booking_id, db')
    end
    end
  end.

(** The body shared by [approve_booking_request] and
    [reject_booking_request], which differ in the status they write. *)
Definition respond_to_booking_request (new_status : BookingStatus)
    (db : Store) (booking_id : string) (response_message : option string)
    (firebase_uid : string) (utcnow : datetime)
    : Response (option Booking.t) * Store :=
  match FirebaseService.get_booking db booking_id with
  | None => (HTTPException HTTP_404_NOT_FOUND, db)
  | Some booking =>
    (* Verify user owns the spot *)
    match FirebaseService.get_parking_spot db (Booking.spot_id booking) with
    | None => (HTTPException HTTP_403_FORBIDDEN, db)
    | Some spot =>
      if decide (Spot.owner_id spot ≠ firebase_uid) then
        (HTTPException HTTP_403_FORBIDDEN, db)
      else
      (* Check if booking is pending *)
      if decide (Booking.status booking ≠ pending) then
        (HTTPException HTTP_400_BAD_REQUEST, db)
      else
      let update_data :=
        BookingPatch.mk (Some new_status) (Some response_message) (Some utcnow) in
      let '(success, db') :=
        FirebaseService.update_booking db booking_id update_data in
      if negb success then (HTTPException HTTP_500_INTERNAL_SERVER_ERROR, db')
      else (APIResponse (FirebaseService.get_booking db' booking_id), db')
    end
  end.

Definition approve_booking_request := respond_to_booking_request approved.

Definition reject_booking_request := respond_to_booking_request rejected.

Definition cancel_booking_request (db : Store) (booking_id : string)
    (firebase_uid : string) (utcnow : datetime)
    : Response (option Booking.t) * Store :=
  match FirebaseService.get_booking db booking_id with
  | None => (HTTPException HTTP_404_NOT_FOUND, db)
  | Some booking =>
    (* Verify user is the finder *)
    if decide (Booking.finder_id booking ≠ firebase_uid) then
      (HTTPException HTTP_403_FORBIDDEN, db)
    else
    (* Check if booking can be cancelled *)
    if decide (Booking.status booking ∉ [pending; approved]) then
      (HTTPException HTTP_400_BAD_REQUEST, db)
    else
    let update_data := BookingPatch.mk (Some cancelled) None (Some utcnow) in
    let '(success, db') :=
      FirebaseService.update_booking db booking_id update_data in
    if negb success then (HTTPException HTTP_500_INTERNAL_SERVER_ERROR, db')
    else (APIResponse (FirebaseService.get_booking db' booking_id), db')
  end.

(** The access test of [get_booking] and [delete_booking]: the finder, or
    else the owner of the booked spot when that spot still exists. *)
Definition has_access (db : Store) (booking : Booking.t)
    (firebase_uid : string) : bool :=
  if decide (Booking.finder_id booking ≠ firebase_uid) then
    match FirebaseService.get_parking_spot db (Booking.spot_id booking) with
    | None => false
    | Some spot => bool_decide (Spot.owner_id spot = firebase_uid)
    end
  else true.

Definition delete_booking (db : Store) (booking_id : string)
    (firebase_uid : string) : Response unit * Store :=
  match FirebaseService.get_booking db booking_id with
  | None => (HTTPException HTTP_404_NOT_FOUND, db)
  | Some booking =>
    (* Verify user has access *)
    if negb (has_access db booking firebase_uid) then
      (HTTPException HTTP_403_FORBIDDEN, db)
    else
    (* Check if booking can be deleted *)
    if decide (Booking.status booking ∉ [cancelled; completed]) then
      (HTTPException HTTP_400_BAD_REQUEST, db)
    else
    let '(success, db') := FirebaseService.delete_booking db booking_id in
    if negb success then (HTTPException HTTP_500_INTERNAL_SERVER_ERROR, db')
    else (APIResponse (), db')
  end.

Definition get_my_bookings (db : Store) (firebase_uid : string)
    : Response (list Booking.t) :=
  APIResponse (FirebaseService.get_user_bookings db firebase_uid).

Definition get_pending_booking_requests (db : Store) (firebase_uid : string)
    : Response (list Booking.t) :=
  APIResponse (FirebaseService.get_pending_bookings_for_owner db firebase_uid).

Definition get_booking (db : Store) (booking_id : string)
    (firebase_uid : string) : Response Booking.t :=
  match FirebaseService.get_booking db booking_id with
  | None => HTTPException HTTP_404_NOT_FOUND
  | Some booking =>
    (* Verify user has access to this booking *)
    if negb (has_access db booking firebase_uid) then
      HTTPException HTTP_403_FORBIDDEN
    else APIResponse booking
  end.

End bookings_router.

(** ** Python library functions used by routers/parking_spots_router.py *)

(** [math.radians]. *)
Definition radians (x : R) : R := (x * PI / 180)%R.

(** [math.atan2(y, x)]: the angle of the point [(x, y)], in [(-PI, PI]]. *)
Definition atan2 (y x : R) : R :=
  if decide (0 < x)%R then atan (y / x)
  else if decide (x < 0)%R then
    if decide (0 <= y)%R then (atan (y / x) + PI)%R else (atan (y / x) - PI)%R
  else if decide (0 < y)%R then (PI / 2)%R
  else if decide (y < 0)%R then (- PI / 2)%R
  else 0%R.

(** [math.ceil(a / b)] for integers [a] and [b]. *)
Definition ceil_div (a b : Z) : Z := (- ((- a) / b))%Z.

(** The slice [l[start:stop]] for indices that are not negative. *)
Definition slice {A} (l : list A) (start stop : Z) : list A :=
  take (Z.to_nat stop - Z.to_nat start) (drop (Z.to_nat start) l).

(** [list.sort(key=...)] is a stable sort; it is modelled by the insertion
    sort that puts an element before the first element of the sorted rest
    whose key is not smaller. *)
Fixpoint insert_by {A} (key : A → R) (x : A) (l : list A) : list A :=
  match l with
  | [] => [x]
  | y :: l' =>
      if decide (key x <= key y)%R then x :: y :: l'
      else y :: insert_by key x l'
  end.

Fixpoint sort_by {A} (key : A → R) (l : list A) : list A :=
  match l with
  | [] => []
  | x :: l' => insert_by key x (sort_by key l')
  end.

(** The truth value of an optional float in a condition: [None] and [0.0]
    are false. *)
Definition truthy (x : option R) : bool :=
  match x with
  | Some v => bool_decide (v ≠ 0%R)
  | None => false
  end.

(** ** routers/parking_spots_router.py *)

Module parking_spots_router.

Definition calculate_distance (lat1 lon1 lat2 lon2 : R) : R :=
  let R := 6371000%R in
  let lat1_rad := radians lat1 in
  let lon1_rad := radians lon1 in
  let lat2_rad := radians lat2 in
  let lon2_rad := radians lon2 in
  let dlat := (lat2_rad - lat1_rad)%R in
  let dlon := (lon2_rad - lon1_rad)%R in
  let a := (sin (dlat / 2) ^ 2
            + cos lat1_rad * cos lat2_rad * sin (dlon / 2) ^ 2)%R in
  let c := (2 * atan2 (sqrt a) (sqrt (1 - a)))%R in
  (R * c)%R.

(** [math.sqrt] raises [ValueError] on a negative float.  On the reals
    [1 - a] is never negative, but the float [a] can round above 1; whether
    it does on given arguments is not decided by the model: it is the
    argument [raises] of the handlers that call [calculate_distance]. *)
Definition try_calculate_distance (raises : R → R → R → R → bool)
    (lat1 lon1 lat2 lon2 : R) : option R :=
  if raises lat1 lon1 lat2 lon2 then None
  else Some (calculate_distance lat1 lon1 lat2 lon2).

(** The four tests of the search loop.  Each is [true] when the loop
    executes [continue], that is when the spot is dropped; [None] is an
    exception raised by the test. *)
Definition location_filter (raises : R → R → R → R → bool)
    (search : ParkingSpotSearch.t) (spot : Spot.t) : option bool :=
  if truthy (ParkingSpotSearch.latitude search)
     && truthy (ParkingSpotSearch.longitude search)
     && truthy (ParkingSpotSearch.radius search)
  then
    match ParkingSpotSearch.latitude search,
          ParkingSpotSearch.longitude search,
          ParkingSpotSearch.radius search with
    | Some latitude, Some longitude, Some radius =>
        distance ← try_calculate_distance raises latitude longitude
                     (Spot.latitude spot) (Spot.longitude spot);
        Some (bool_decide (radius < distance)%R)
    | _, _, _ => Some false
    end
  else Some false.

Definition price_filter (search : ParkingSpotSearch.t) (spot : Spot.t) : bool :=
  truthy (ParkingSpotSearch.max_price search)
  && match ParkingSpotSearch.max_price search with
     | Some max_price => bool_decide (max_price < Spot.hourly_rate spot)%R
     | None => false
     end.

Definition vehicle_size_filter (search : ParkingSpotSearch.t) (spot : Spot.t) : bool :=
  match ParkingSpotSearch.vehicle_size search with
  | Some vehicle_size => bool_decide (Spot.max_vehicle_size spot ≠ vehicle_size)
  | None => false
  end.

Definition time_filter (search : ParkingSpotSearch.t) (spot : Spot.t)
    : option bool :=
  match ParkingSpotSearch.start_time search, ParkingSpotSearch.end_time search with
  | Some start_time, Some end_time =>
      starts_later ← DateTime.gt (DateTime.Aware (Spot.availability_start spot))
                       start_time;
      if starts_later : bool then Some true
      else DateTime.lt (DateTime.Aware (Spot.availability_end spot)) end_time
  | _, _ => Some false
  end.

(** One iteration of the loop: [Some true] when the spot is appended to
    [filtered_spots], [None] when a test raises.  A test is made only when
    no earlier test has dropped the spot. *)
Definition spot_matches (raises : R → R → R → R → bool)
    (search : ParkingSpotSearch.t) (spot : Spot.t) : option bool :=
  too_far ← location_filter raises search spot;
  if too_far : bool then Some false
  else if price_filter search spot then Some false
  else if vehicle_size_filter search spot then Some false
  else
    unavailable ← time_filter search spot;
    Some (negb unavailable).

(** The loop over the spots; an exception in any iteration ends it. *)
Fixpoint filter_spots (raises : R → R → R → R → bool)
    (search : ParkingSpotSearch.t) (spots : list Spot.t)
    : option (list Spot.t) :=
  match spots with
  | [] => Some []
  | spot :: spots' =>
      keep ← spot_matches raises search spot;
      filtered_spots ← filter_spots raises search spots';
      Some (if keep : bool then spot :: filtered_spots else filtered_spots)
  end.

Definition apply_search_filters (raises : R → R → R → R → bool)
    (search : option ParkingSpotSearch.t) (spots : list Spot.t)
    : option (list Spot.t) :=
  match search with
  | Some search => filter_spots raises search spots
  | None => Some spots
  end.

Module Pagination.
Record t := mk { total : Z; page : Z; size : Z; pages : Z }.
End Pagination.

Module SpotsPage.
Record t := mk { spots : list Spot.t; pagination : Pagination.t }.
End SpotsPage.

Definition paginate (spots : list Spot.t) (page size : Z) : SpotsPage.t :=
  let total := Z.of_nat (length spots) in
  let start_idx := ((page - 1) * size)%Z in
  let end_idx := (start_idx + size)%Z in
  let paginated_spots := slice spots start_idx end_idx in
  SpotsPage.mk paginated_spots
    (Pagination.mk total page size (ceil_div total size)).

(** [page: int = Query(1, ge=1)], [size: int = Query(20, ge=1, le=100)]:
    a request outside the bounds is refused before the body runs. *)
Definition get_parking_spots (raises : R → R → R → R → bool) (db : Store)
    (search : option ParkingSpotSearch.t) (page size : Z)
    : Response SpotsPage.t :=
  if negb ((1 <=? page)%Z && (1 <=? size)%Z && (size <=? 100)%Z) then
    HTTPException HTTP_422_UNPROCESSABLE_ENTITY
  else
  let spots := FirebaseService.get_available_parking_spots db in
  match apply_search_filters raises search spots with
  | None => HTTPException HTTP_500_INTERNAL_SERVER_ERROR
  | Some spots => APIResponse (paginate spots page size)
  end.

(** A spot dictionary after [spot["distance"] = distance]. *)
Module NearbySpot.
Record t := mk { spot : Spot.t; distance : R }.
End NearbySpot.

Fixpoint filter_by_distance (latitude longitude radius : R)
    (spots : list Spot.t) : list NearbySpot.t :=
  match spots with
  | [] => []
  | spot :: spots' =>
      let distance :=
        calculate_distance latitude longitude
          (Spot.latitude spot) (Spot.longitude spot) in
      if decide (distance <= radius)%R then
        NearbySpot.mk spot distance
        :: filter_by_distance latitude longitude radius spots'
      else filter_by_distance latitude longitude radius spots'
  end.

(** The loop and the sort of [get_nearby_parking_spots], when no call of
    [calculate_distance] raises. *)
Definition nearby (latitude longitude radius : R) (spots : list Spot.t)
    : list NearbySpot.t :=
  let nearby_spots := filter_by_distance latitude longitude radius spots in
  sort_by NearbySpot.distance nearby_spots.

(** [latitude: Query(..., ge=-90, le=90)], [longitude: Query(..., ge=-180,
    le=180)], [radius: Query(5000, ge=100, le=50000)].  The loop calls
    [calculate_distance] on every available spot; when a call raises, the
    handler answers 500. *)
Definition get_nearby_parking_spots (raises : R → R → R → R → bool)
    (db : Store) (latitude longitude radius : R)
    : Response (list NearbySpot.t) :=
  if decide ((-90 <= latitude <= 90) ∧ (-180 <= longitude <= 180)
             ∧ (100 <= radius <= 50000))%R then
    let spots := FirebaseService.get_available_parking_spots db in
    if existsb (λ spot, raises latitude longitude
                          (Spot.latitude spot) (Spot.longitude spot)) spots
    then HTTPException HTTP_500_INTERNAL_SERVER_ERROR
    else APIResponse (nearby latitude longitude radius spots)
  else HTTPException HTTP_422_UNPROCESSABLE_ENTITY.

Definition update_parking_spot (db : Store) (spot_id : string)
    (spot_update : ParkingSpotUpdate.t) (firebase_uid : string)
    (utcnow : datetime) : Response (option Spot.t) * Store :=
  match FirebaseService.get_parking_spot db spot_id with
  | None => (HTTPException HTTP_404_NOT_FOUND, db)
  | Some existing_spot =>
    (* Verify ownership *)
    if decide (Spot.owner_id existing_spot ≠ firebase_uid) then
      (HTTPException HTTP_403_FORBIDDEN, db)
    else
    (* Prepare update data: a key for each field that is not None *)
    let update_data :=
      SpotPatch.mk
        (ParkingSpotUpdate.address spot_update)
        (ParkingSpotUpdate.latitude spot_update)
        (ParkingSpotUpdate.longitude spot_update)
        (ParkingSpotUpdate.hourly_rate spot_update)
        (ParkingSpotUpdate.is_available spot_update)
        (ParkingSpotUpdate.availability_start spot_update)
        (ParkingSpotUpdate.availability_end spot_update)
        (ParkingSpotUpdate.max_vehicle_size spot_update)
        (ParkingSpotUpdate.description spot_update)
        (ParkingSpotUpdate.image_url spot_update)
        (Some utcnow) in
    let '(success, db') :=
      FirebaseService.update_parking_spot db spot_id update_data in
    if negb success then (HTTPException HTTP_500_INTERNAL_SERVER_ERROR, db')
    else (APIResponse (FirebaseService.get_parking_spot db' spot_id), db')
  end.

Definition delete_parking_spot (db : Store) (spot_id : string)
    (firebase_uid : string) : Response unit * Store :=
  match FirebaseService.get_parking_spot db spot_id with
  | None => (HTTPException HTTP_404_NOT_FOUND, db)
  | Some existing_spot =>
    if decide (Spot.owner_id existing_spot ≠ firebase_uid) then
      (HTTPException HTTP_403_FORBIDDEN, db)
    else
    let '(success, db') := FirebaseService.delete_parking_spot db spot_id in
    if negb success then (HTTPException HTTP_500_INTERNAL_SERVER_ERROR, db')
    else (APIResponse (), db')
  end.

(** The handler reads the clock twice, for [created_at] and for
    [updated_at]. *)
Definition create_parking_spot (db : Store)
    (spot_data : ParkingSpotCreate.t) (firebase_uid : string)
    (doc_ref : string) (utcnow utcnow' : datetime)
    : Response string * Store :=
  (* Verify ownership *)
  if decide (ParkingSpotCreate.owner_id spot_data ≠ firebase_uid) then
    (HTTPException HTTP_403_FORBIDDEN, db)
  else
  let spot_dict :=
    SpotDict.mk (ParkingSpotCreate.address spot_data)
      (ParkingSpotCreate.latitude spot_data)
      (ParkingSpotCreate.longitude spot_data)
      (ParkingSpotCreate.hourly_rate spot_data)
      (ParkingSpotCreate.is_available spot_data)
      (ParkingSpotCreate.availability_start spot_data)
      (ParkingSpotCreate.availability_end spot_data)
      (ParkingSpotCreate.max_vehicle_size spot_data)
      (ParkingSpotCreate.description spot_data)
      (ParkingSpotCreate.image_url spot_data)
      (ParkingSpotCreate.owner_id spot_data)
      (ParkingSpotCreate.owner_name spot_data)
      utcnow utcnow' in
  let '(spot_id, db') :=
    FirebaseService.create_parking_spot db doc_ref spot_dict in
  (APIResponse spot_id, db').

Definition get_my_parking_spots (db : Store) (firebase_uid : string)
    : Response (list Spot.t) :=
  APIResponse (FirebaseService.get_parking_spots_by_owner db firebase_uid).

Definition get_parking_spot (db : Store) (spot_id : string)
    : Response Spot.t :=
  match FirebaseService.get_parking_spot db spot_id with
  | None => HTTPException HTTP_404_NOT_FOUND
  | Some spot => APIResponse spot
  end.

End parking_spots_router.

(** ** routers/auth_router.py *)

Module auth_router.

(** [auth.get_user] of the identity provider is an argument: it tells
    whether the provider knows the uid ([false] when the call raises).
    The handler reads the clock twice, for [created_at] and for
    [last_login_at]. *)
Definition register_user (auth_get_user : string → bool) (db : Store)
    (user_data : UserCreate.t) (utcnow utcnow' : datetime)
    : Response string * Store :=
  (* Verify the Firebase UID is valid *)
  if negb (auth_get_user (UserCreate.firebase_uid user_data)) then
    (HTTPException HTTP_400_BAD_REQUEST, db)
  else
  (* Check if user already exists *)
  match FirebaseService.get_user db (UserCreate.firebase_uid user_data) with
  | Some existing_user => (HTTPException HTTP_409_CONFLICT, db)
  | None =>
    let user_dict :=
      User.mk (UserCreate.firebase_uid user_data)
        (UserCreate.email user_data) (UserCreate.name user_data)
        (UserCreate.phone_number user_data)
        (UserCreate.profile_image_url user_data)
        (UserCreate.role user_data) utcnow (Some utcnow') in
    let '(_, db') := FirebaseService.create_user db user_dict in
    (APIResponse (UserCreate.firebase_uid user_data), db')
  end.

(** [login_user] answers with the record it read before the update. *)
Definition login_user (db : Store) (firebase_uid : string)
    (utcnow : datetime) : Response User.t * Store :=
  match FirebaseService.get_user db firebase_uid with
  | None => (HTTPException HTTP_404_NOT_FOUND, db)
  | Some user =>
    let '(_, db') :=
      FirebaseService.update_user db firebase_uid
        (UserPatch.mk None None None None (Some utcnow)) in
    (APIResponse user, db')
  end.

(** [token_data.get("uid")] may be absent or empty. *)
Definition get_current_user (db : Store) (firebase_uid : option string)
    : Response User.t :=
  match firebase_uid with
  | None => HTTPException HTTP_401_UNAUTHORIZED
  | Some firebase_uid =>
    if decide (firebase_uid = "") then HTTPException HTTP_401_UNAUTHORIZED
    else
    match FirebaseService.get_user db firebase_uid with
    | None => HTTPException HTTP_404_NOT_FOUND
    | Some user => APIResponse user
    end
  end.

End auth_router.

(** ** routers/users_router.py *)

Module users_router.

Definition get_user_profile (db : Store) (firebase_uid : string)
    : Response User.t :=
  match FirebaseService.get_user db firebase_uid with
  | None => HTTPException HTTP_404_NOT_FOUND
  | Some user => APIResponse user
  end.

Definition update_user_profile (db : Store) (user_update : UserUpdate.t)
    (firebase_uid : string) : Response (option User.t) * Store :=
  match FirebaseService.get_user db firebase_uid with
  | None => (HTTPException HTTP_404_NOT_FOUND, db)
  | Some existing_user =>
    (* Prepare update data: a key for each field that is not None *)
    let update_data :=
      UserPatch.mk (UserUpdate.name user_update)
        (UserUpdate.phone_number user_update)
        (UserUpdate.profile_image_url user_update)
        (UserUpdate.role user_update) None in
    (* if not update_data *)
    if user_patch_is_empty update_data then
      (HTTPException HTTP_400_BAD_REQUEST, db)
    else
    let '(success, db') :=
      FirebaseService.update_user db firebase_uid update_data in
    if negb success then (HTTPException HTTP_500_INTERNAL_SERVER_ERROR, db')
    else (APIResponse (FirebaseService.get_user db' firebase_uid), db')
  end.

Definition delete_user_profile (db : Store) (firebase_uid : string)
    : Response unit * Store :=
  match FirebaseService.get_user db firebase_uid with
  | None => (HTTPException HTTP_404_NOT_FOUND, db)
  | Some existing_user =>
    let '(success, db') := FirebaseService.delete_user db firebase_uid in
    if negb success then (HTTPException HTTP_500_INTERNAL_SERVER_ERROR, db')
    else (APIResponse (), db')
  end.

End users_router.

(** * Definitions used by the statements *)

Import bookings_router parking_spots_router.

(** The caller owns the spot that the booking refers to. *)
Definition owns_spot_of (db : Store) (booking : Booking.t) (uid : string) : Prop :=
  ∃ spot, parking_spots db !! Booking.spot_id booking = Some spot
          ∧ Spot.owner_id spot = uid.

(** The store in which the booking [booking_id] is replaced by [booking]. *)
Definition with_booking (db : Store) (booking_id : string)
    (booking : Booking.t) : Store :=
  mkStore (users db) (parking_spots db) (<[booking_id := booking]> (bookings db)).

Definition without_booking (db : Store) (booking_id : string) : Store :=
  mkStore (users db) (parking_spots db) (delete booking_id (bookings db)).

Definition succeeded {A} (r : Response A) : Prop :=
  match r with APIResponse _ => True | HTTPException _ => False end.

(** The five booking operations, with their arguments. *)
Inductive BookingOperation :=
  | Create (firebase_uid : string) (booking_data : BookingCreate.t)
      (doc_ref : string) (utcnow : datetime)
  | Approve (booking_id : string) (response_message : option string)
      (firebase_uid : string) (utcnow : datetime)
  | Reject (booking_id : string) (response_message : option string)
      (firebase_uid : string) (utcnow : datetime)
  | Cancel (booking_id : string) (firebase_uid : string) (utcnow : datetime)
  | Delete (booking_id : string) (firebase_uid : string).

(** The status code of a failed call, [None] for a successful one. *)
Definition error_code {A} (r : Response A * Store) : option Z * Store :=
  match r.1 with
  | APIResponse _ => (None, r.2)
  | HTTPException status_code => (Some status_code, r.2)
  end.

Definition run (op : BookingOperation) (db : Store) : option Z * Store :=
  match op with
  | Create uid booking_data doc_ref utcnow =>
      error_code (create_booking_request db uid booking_data doc_ref utcnow)
  | Approve booking_id msg uid utcnow =>
      error_code (approve_booking_request db booking_id msg uid utcnow)
  | Reject booking_id msg uid utcnow =>
      error_code (reject_booking_request db booking_id msg uid utcnow)
  | Cancel booking_id uid utcnow =>
      error_code (cancel_booking_request db booking_id uid utcnow)
  | Delete booking_id uid =>
      error_code (delete_booking db booking_id uid)
  end.

(** The quantity [a] of [calculate_distance]. *)
Definition haversine_a (lat1 lon1 lat2 lon2 : R) : R :=
  (sin ((radians lat2 - radians lat1) / 2) ^ 2
   + cos (radians lat1) * cos (radians lat2)
     * sin ((radians lon2 - radians lon1) / 2) ^ 2)%R.

(** The order of a sort by [key]. *)
Definition key_le {A} (key : A → R) (x y : A) : Prop := (key x <= key y)%R.

(** The distance of a spot to the centre of a nearby search, and the spot
    with that distance written into it. *)
Definition distance_of (latitude longitude : R) (spot : Spot.t) : R :=
  calculate_distance latitude longitude (Spot.latitude spot) (Spot.longitude spot).

Definition annotate (latitude longitude : R) (spot : Spot.t) : NearbySpot.t :=
  NearbySpot.mk spot (distance_of latitude longitude spot).

(** ** Concrete documents and requests used by the examples *)

Definition spot_a : Spot.t :=
  Spot.mk "spot-a" "1 Main St" 0 0 10 true 0 86400000000 any
    "driveway" None "owner-1" "Olga" 0 0.

Definition request_a : BookingCreate.t :=
  BookingCreate.mk "spot-a" (DateTime.Aware 3600000000)
    (DateTime.Aware 10800000000) None
    "finder-1" "Finn" "finn@example.org".


Definition booking_a : Booking.t :=
  Booking.mk "booking-a" "spot-a" "finder-1" "Finn" "finn@example.org"
    3600000000 10800000000 20 pending None 5 None None.

Definition db_a : Store :=
  mkStore ∅ {[ "spot-a" := spot_a ]} ∅.

Definition db_b : Store :=
  mkStore ∅ {[ "spot-a" := spot_a ]} {[ "booking-a" := booking_a ]}.

Definition no_update : ParkingSpotUpdate.t :=
  ParkingSpotUpdate.mk None None None None None None None None None None.

Definition no_filters : ParkingSpotSearch.t :=
  ParkingSpotSearch.mk None None None None None None None.

Definition search_max_price_0 : ParkingSpotSearch.t :=
  ParkingSpotSearch.mk None None None (Some 0%R) None None None.

Definition search_equator : ParkingSpotSearch.t :=
  ParkingSpotSearch.mk (Some 0%R) (Some 90%R) (Some 100%R) None None None None.

(** * Definitions used by the further properties *)

Import auth_router users_router.

(** The calls that can write to the store, with their arguments. *)
Inductive Operation :=
  | Register (user_data : UserCreate.t) (utcnow utcnow' : datetime)
  | Login (firebase_uid : string) (utcnow : datetime)
  | UpdateProfile (user_update : UserUpdate.t) (firebase_uid : string)
  | DeleteProfile (firebase_uid : string)
  | CreateSpot (spot_data : ParkingSpotCreate.t) (firebase_uid : string)
      (doc_ref : string) (utcnow utcnow' : datetime)
  | UpdateSpot (spot_id : string) (spot_update : ParkingSpotUpdate.t)
      (firebase_uid : string) (utcnow : datetime)
  | DeleteSpot (spot_id : string) (firebase_uid : string)
  | OnBooking (op : BookingOperation).

(** The store after a call. *)
Definition perform (auth_get_user : string → bool) (op : Operation)
    (db : Store) : Store :=
  match op with
  | Register user_data utcnow utcnow' =>
      (register_user auth_get_user db user_data utcnow utcnow').2
  | Login uid utcnow => (login_user db uid utcnow).2
  | UpdateProfile user_update uid => (update_user_profile db user_update uid).2
  | DeleteProfile uid => (delete_user_profile db uid).2
  | CreateSpot spot_data uid doc_ref utcnow utcnow' =>
      (create_parking_spot db spot_data uid doc_ref utcnow utcnow').2
  | UpdateSpot spot_id spot_update uid utcnow =>
      (update_parking_spot db spot_id spot_update uid utcnow).2
  | DeleteSpot spot_id uid => (delete_parking_spot db spot_id uid).2
  | OnBooking op => (run op db).2
  end.

(** The store after a sequence of calls. *)
Definition perform_all (auth_get_user : string → bool)
    (ops : list Operation) (db : Store) : Store :=
  foldl (λ db op, perform auth_get_user op db) db ops.

Definition empty_store : Store := mkStore ∅ ∅ ∅.

(** The booking document reference that a call may write a new document
    to. *)
Definition created_booking (op : Operation) : option string :=
  match op with
  | OnBooking (Create _ _ doc_ref _) => Some doc_ref
  | _ => None
  end.

(** Every document carries the id it is stored under. *)
Definition ids_match_keys (db : Store) : Prop :=
  (∀ k u, users db !! k = Some u → User.uid u = k)
  ∧ (∀ k s, parking_spots db !! k = Some s → Spot.id s = k)
  ∧ (∀ k b, bookings db !! k = Some b → Booking.id b = k).

(** The statuses that a handler writes. *)
Definition written_statuses : list BookingStatus :=
  [pending; approved; rejected; cancelled].

Definition statuses_written (db : Store) : Prop :=
  ∀ k b, bookings db !! k = Some b → Booking.status b ∈ written_statuses.

(** The fields of a booking that no transition writes. *)
Definition same_request (b b' : Booking.t) : Prop :=
  Booking.id b' = Booking.id b
  ∧ Booking.spot_id b' = Booking.spot_id b
  ∧ Booking.finder_id b' = Booking.finder_id b
  ∧ Booking.finder_name b' = Booking.finder_name b
  ∧ Booking.finder_email b' = Booking.finder_email b
  ∧ Booking.start_time b' = Booking.start_time b
  ∧ Booking.end_time b' = Booking.end_time b
  ∧ Booking.total_amount b' = Booking.total_amount b
  ∧ Booking.message b' = Booking.message b
  ∧ Booking.created_at b' = Booking.created_at b.

(** The items of page [page], as [paginate] cuts them. *)
Definition page_items (spots : list Spot.t) (page size : Z) : list Spot.t :=
  SpotsPage.spots (paginate spots page size).

(** The pages [1 .. n], one after the other. *)
Definition all_pages (spots : list Spot.t) (size : Z) (n : nat) : list Spot.t :=
  concat ((λ i : nat, page_items spots (Z.of_nat (S i)) size) <$> seq 0 n).

(** What a call writes: nothing, or one document of one collection. *)
Inductive Write :=
  | NoWrite
  | SetUser (uid : string) (user : User.t)
  | DeleteUser (uid : string)
  | SetSpot (spot_id : string) (spot : Spot.t)
  | DeleteSpotDoc (spot_id : string)
  | SetBooking (booking_id : string) (booking : Booking.t)
  | DeleteBooking (booking_id : string).

Definition write (w : Write) (db : Store) : Store :=
  match w with
  | NoWrite => db
  | SetUser k u => mkStore (<[k := u]> (users db)) (parking_spots db) (bookings db)
  | DeleteUser k => mkStore (delete k (users db)) (parking_spots db) (bookings db)
  | SetSpot k s => mkStore (users db) (<[k := s]> (parking_spots db)) (bookings db)
  | DeleteSpotDoc k => mkStore (users db) (delete k (parking_spots db)) (bookings db)
  | SetBooking k b => mkStore (users db) (parking_spots db) (<[k := b]> (bookings db))
  | DeleteBooking k => mkStore (users db) (parking_spots db) (delete k (bookings db))
  end.

(** The writes that the handlers make: a new document carries the id it
    is stored under; a document that replaces another keeps the fields
    that identify it; a booking changes status only from [pending] or
    [approved] and only to [approved], [rejected] or [cancelled]; a
    booking is deleted only when [cancelled] or [completed]. *)
Definition handler_write (op : Operation) (db : Store) (w : Write) : Prop :=
  match w with
  | NoWrite => True
  | SetUser k u =>
      (users db !! k = None ∧ User.uid u = k)
      ∨ ∃ u0, users db !! k = Some u0
              ∧ User.uid u = User.uid u0
              ∧ User.email u = User.email u0
              ∧ User.created_at u = User.created_at u0
  | DeleteUser k => is_Some (users db !! k)
  | SetSpot k s =>
      Spot.id s = k
      ∨ ∃ s0, parking_spots db !! k = Some s0
              ∧ Spot.id s = Spot.id s0
              ∧ Spot.owner_id s = Spot.owner_id s0
              ∧ Spot.owner_name s = Spot.owner_name s0
              ∧ Spot.created_at s = Spot.created_at s0
  | DeleteSpotDoc k => is_Some (parking_spots db !! k)
  | SetBooking k b =>
      (created_booking op = Some k ∧ Booking.id b = k
       ∧ Booking.status b = pending)
      ∨ ∃ b0, bookings db !! k = Some b0
              ∧ same_request b0 b
              ∧ Booking.status b0 ∈ [pending; approved]
              ∧ Booking.status b ∈ [approved; rejected; cancelled]
  | DeleteBooking k =>
      ∃ b0, bookings db !! k = Some b0
            ∧ Booking.status b0 ∈ [cancelled; completed]
  end.

Definition booking_r : Booking.t :=
  Booking.mk "booking-r" "spot-a" "finder-1" "Finn" "finn@example.org"
    3600000000 10800000000 20 rejected None 5 (Some "no"%string) (Some 6%Z).

Definition db_r : Store :=
  mkStore ∅ {[ "spot-a" := spot_a ]} {[ "booking-r" := booking_r ]}.

Definition user_request_a : UserCreate.t :=
  UserCreate.mk "finn@example.org" "Finn" None None finder "finder-1".

Definition user_a : User.t :=
  User.mk "finder-1" "finn@example.org" "Finn" None None finder 1 (Some 2%Z).

Definition db_u : Store :=
  mkStore {[ "finder-1" := user_a ]} {[ "spot-a" := spot_a ]}
    {[ "booking-a" := booking_a ]}.

Definition rename_update : UserUpdate.t :=
  UserUpdate.mk (Some "Finley"%string) None None None.

Definition spot_request_a : ParkingSpotCreate.t :=
  ParkingSpotCreate.mk "2 Side St" 1 2 5 true 0 10 compact "garage" None
    "owner-1" "Olga".

(** The booking document that [create_booking_request] stores. *)
Definition new_booking (booking_data : BookingCreate.t) (spot : Spot.t)
    (doc_ref : string) (utcnow : datetime) : Booking.t :=
  Booking.mk doc_ref (BookingCreate.spot_id booking_data)
    (BookingCreate.finder_id booking_data)
    (BookingCreate.finder_name booking_data)
    (BookingCreate.finder_email booking_data)
    (DateTime.instant (BookingCreate.start_time booking_data))
    (DateTime.instant (BookingCreate.end_time booking_data))
    (IZR (DateTime.instant (BookingCreate.end_time booking_data)
          - DateTime.instant (BookingCreate.start_time booking_data))
     / 1000000 / 3600
     * Spot.hourly_rate spot)%R
    pending (BookingCreate.message booking_data) utcnow None None.

(** The conditions under which [create_booking_request] succeeds: the
    requester is the caller, the spot exists and is available, and the
    start and the end are aware datetimes inside the availability
    window. *)
Definition bookable (db : Store) (uid : string)
    (booking_data : BookingCreate.t) (spot : Spot.t) : Prop :=
  BookingCreate.finder_id booking_data = uid
  ∧ parking_spots db !! BookingCreate.spot_id booking_data = Some spot
  ∧ Spot.is_available spot = true
  ∧ DateTime.is_aware (BookingCreate.start_time booking_data) = true
  ∧ DateTime.is_aware (BookingCreate.end_time booking_data) = true
  ∧ (Spot.availability_start spot
     ≤ DateTime.instant (BookingCreate.start_time booking_data))%Z
  ∧ (DateTime.instant (BookingCreate.end_time booking_data)
     ≤ Spot.availability_end spot)%Z.

(** What the search loop asks of a spot, in the comparisons of the code:
    the tests on the location and on the price are made only for values
    that are not zero, and they drop a spot that is farther than the
    radius, or dearer than the bound; the test on the time is made on aware
    datetimes. *)
Definition passes (search : ParkingSpotSearch.t) (spot : Spot.t) : Prop :=
  (∀ lat lon radius,
     ParkingSpotSearch.latitude search = Some lat →
     ParkingSpotSearch.longitude search = Some lon →
     ParkingSpotSearch.radius search = Some radius →
     lat ≠ 0%R → lon ≠ 0%R → radius ≠ 0%R →
     ¬ (radius
        < calculate_distance lat lon (Spot.latitude spot) (Spot.longitude spot))%R)
  ∧ (∀ max_price,
       ParkingSpotSearch.max_price search = Some max_price →
       max_price ≠ 0%R → ¬ (max_price < Spot.hourly_rate spot)%R)
  ∧ (∀ vehicle_size,
       ParkingSpotSearch.vehicle_size search = Some vehicle_size →
       Spot.max_vehicle_size spot = vehicle_size)
  ∧ (∀ start_time end_time,
       ParkingSpotSearch.start_time search = Some start_time →
       ParkingSpotSearch.end_time search = Some end_time →
       DateTime.is_aware start_time = true
       ∧ DateTime.is_aware end_time = true
       ∧ (Spot.availability_start spot ≤ DateTime.instant start_time)%Z
       ∧ (DateTime.instant end_time ≤ Spot.availability_end spot)%Z).

Definition search_compact_window : ParkingSpotSearch.t :=
  ParkingSpotSearch.mk None None None None (Some compact)
    (Some (DateTime.Aware 3600000000)) (Some (DateTime.Aware 10800000000)).

Definition search_window : ParkingSpotSearch.t :=
  ParkingSpotSearch.mk None None None None None
    (Some (DateTime.Aware 3600000000)) (Some (DateTime.Aware 10800000000)).

(** An oracle under which no call of [calculate_distance] raises. *)
Definition never_raises : R → R → R → R → bool := λ _ _ _ _, false.

(** The state of [db_b] after the finder has cancelled [booking_a]. *)
Definition booking_c : Booking.t :=
  Booking.mk "booking-a" "spot-a" "finder-1" "Finn" "finn@example.org"
    3600000000 10800000000 20 cancelled None 5 None (Some 8%Z).

Definition db_c : Store :=
  mkStore ∅ {[ "spot-a" := spot_a ]} {[ "booking-a" := booking_c ]}.

Definition hide_update : ParkingSpotUpdate.t :=
  ParkingSpotUpdate.mk None None None None (Some false) None None None None None.

Definition request_b : BookingCreate.t :=
  BookingCreate.mk "spot-b" (DateTime.Aware 1) (DateTime.Aware 2) None
    "finder-1" "Finn" "finn@example.org".

Definition history_a : list Operation :=
  [CreateSpot spot_request_a "owner-1" "spot-b" 1 1;
   OnBooking (Create "finder-1" request_b "booking-1" 2);
   OnBooking (Cancel "booking-1" "finder-1" 3)].

(** * Properties *)

(** ** Booking creation *)

Local Ltac store_ops :=
  unfold FirebaseService.get_parking_spot, FirebaseService.get_booking,
    FirebaseService.create_booking, FirebaseService.update_booking,
    FirebaseService.delete_booking, FirebaseService.update_parking_spot,
    FirebaseService.delete_parking_spot in *.




(** ** The booking state machine *)

Section transitions.
Context (db : Store) (booking_id : string) (booking : Booking.t).
Hypothesis Hbooking : bookings db !! booking_id = Some booking.

Lemma respond_not_pending new_status msg uid utcnow :
  owns_spot_of db booking uid →
  Booking.status booking ≠ pending →
  respond_to_booking_request new_status db booking_id msg uid utcnow
  = (HTTPException HTTP_400_BAD_REQUEST, db).
Proof using Hbooking.
  intros (spot & Hspot & Howner) Hst.
  unfold respond_to_booking_request. store_ops.
  rewrite Hbooking, Hspot.
  rewrite decide_False by (intros H; apply H; exact Howner).
  rewrite decide_True by exact Hst. reflexivity.
Qed.

Lemma respond_pending new_status msg uid utcnow :
  owns_spot_of db booking uid →
  Booking.status booking = pending →
  let booking' :=
    merge_booking (BookingPatch.mk (Some new_status) (Some msg) (Some utcnow))
      booking in
  respond_to_booking_request new_status db booking_id msg uid utcnow
  = (APIResponse (Some booking'), with_booking db booking_id booking').
Proof using Hbooking.
  intros (spot & Hspot & Howner) Hst.
  unfold respond_to_booking_request. store_ops.
  rewrite Hbooking, Hspot.
  rewrite decide_False by (intros H; apply H; exact Howner).
  rewrite decide_False by (intros H; apply H; exact Hst).
  cbn. rewrite lookup_insert_eq. reflexivity.
Qed.

Lemma respond_not_owner new_status msg uid utcnow spot :
  parking_spots db !! Booking.spot_id booking = Some spot →
  Spot.owner_id spot ≠ uid →
  respond_to_booking_request new_status db booking_id msg uid utcnow
  = (HTTPException HTTP_403_FORBIDDEN, db).
Proof using Hbooking.
  intros Hspot Howner.
  unfold respond_to_booking_request. store_ops.
  rewrite Hbooking, Hspot. rewrite decide_True by exact Howner. reflexivity.
Qed.

Lemma respond_succeeded_inv new_status msg uid utcnow :
  succeeded
    (respond_to_booking_request new_status db booking_id msg uid utcnow).1 →
  owns_spot_of db booking uid ∧ Booking.status booking = pending.
Proof using Hbooking.
  unfold respond_to_booking_request, owns_spot_of. store_ops.
  rewrite Hbooking.
  destruct (parking_spots db !! Booking.spot_id booking) as [spot|];
    [|intros []].
  destruct (decide (Spot.owner_id spot ≠ uid)) as [|Howner]; [intros []|].
  destruct (decide (Booking.status booking ≠ pending)) as [|Hst]; [intros []|].
  intros _. apply dec_stable in Howner. apply dec_stable in Hst.
  split; [exists spot; split; [reflexivity | exact Howner] | exact Hst].
Qed.

Lemma cancel_not_cancellable uid utcnow :
  Booking.finder_id booking = uid →
  Booking.status booking ≠ pending →
  Booking.status booking ≠ approved →
  cancel_booking_request db booking_id uid utcnow
  = (HTTPException HTTP_400_BAD_REQUEST, db).
Proof using Hbooking.
  intros Hfinder Hp Ha. unfold cancel_booking_request. store_ops.
  rewrite Hbooking.
  rewrite decide_False by (intros H; apply H; exact Hfinder).
  rewrite decide_True; [reflexivity|].
  rewrite !elem_of_cons, elem_of_nil. tauto.
Qed.

Lemma cancel_cancellable uid utcnow :
  Booking.finder_id booking = uid →
  Booking.status booking = pending ∨ Booking.status booking = approved →
  let booking' :=
    merge_booking (BookingPatch.mk (Some cancelled) None (Some utcnow))
      booking in
  cancel_booking_request db booking_id uid utcnow
  = (APIResponse (Some booking'), with_booking db booking_id booking').
Proof using Hbooking.
  intros Hfinder Hst. unfold cancel_booking_request. store_ops.
  rewrite Hbooking.
  rewrite decide_False by (intros H; apply H; exact Hfinder).
  rewrite decide_False.
  - cbn. rewrite lookup_insert_eq. reflexivity.
  - intros H. apply H. rewrite !elem_of_cons. tauto.
Qed.

Lemma cancel_not_finder uid utcnow :
  Booking.finder_id booking ≠ uid →
  cancel_booking_request db booking_id uid utcnow
  = (HTTPException HTTP_403_FORBIDDEN, db).
Proof using Hbooking.
  intros Hfinder. unfold cancel_booking_request. store_ops.
  rewrite Hbooking. rewrite decide_True by exact Hfinder. reflexivity.
Qed.

Lemma cancel_succeeded_inv uid utcnow :
  succeeded (cancel_booking_request db booking_id uid utcnow).1 →
  Booking.finder_id booking = uid
  ∧ (Booking.status booking = pending ∨ Booking.status booking = approved).
Proof using Hbooking.
  unfold cancel_booking_request. store_ops. rewrite Hbooking.
  destruct (decide (Booking.finder_id booking ≠ uid)) as [|Hf]; [intros []|].
  destruct (decide (Booking.status booking ∉ [pending; approved])) as [|Hst];
    [intros []|].
  intros _. apply dec_stable in Hf. apply dec_stable in Hst.
  rewrite !elem_of_cons, elem_of_nil in Hst. tauto.
Qed.

Lemma delete_not_deletable uid :
  has_access db booking uid = true →
  Booking.status booking ≠ cancelled →
  Booking.status booking ≠ completed →
  delete_booking db booking_id uid
  = (HTTPException HTTP_400_BAD_REQUEST, db).
Proof using Hbooking.
  intros Hacc Hc Hd. unfold delete_booking. store_ops.
  rewrite Hbooking, Hacc. cbn [negb].
  rewrite decide_True; [reflexivity|].
  rewrite !elem_of_cons, elem_of_nil. tauto.
Qed.

Lemma delete_deletable uid :
  has_access db booking uid = true →
  Booking.status booking = cancelled ∨ Booking.status booking = completed →
  delete_booking db booking_id uid
  = (APIResponse (), without_booking db booking_id).
Proof using Hbooking.
  intros Hacc Hst. unfold delete_booking. store_ops.
  rewrite Hbooking, Hacc. cbn [negb].
  rewrite decide_False; [reflexivity|].
  intros H. apply H. rewrite !elem_of_cons. tauto.
Qed.

Lemma delete_succeeded_inv uid :
  succeeded (delete_booking db booking_id uid).1 →
  has_access db booking uid = true
  ∧ (Booking.status booking = cancelled ∨ Booking.status booking = completed).
Proof using Hbooking.
  unfold delete_booking. store_ops. rewrite Hbooking.
  destruct (has_access db booking uid); [|intros []]. cbn [negb].
  destruct (decide (Booking.status booking ∉ [cancelled; completed])) as [|Hst];
    [intros []|].
  intros _. apply dec_stable in Hst.
  rewrite !elem_of_cons, elem_of_nil in Hst. tauto.
Qed.

End transitions.

(** C2.  For a booking that exists: [approve] and [reject] by the spot's
    owner answer 400 unless the status is [pending], and succeed from
    [pending] and only from it; [cancel] by the finder answers 400 unless
    the status is [pending] or [approved], and succeeds from these and only
    from these; [delete] by a caller with access answers 400 unless the
    status is [cancelled] or [completed], and from these, and only from
    these, it succeeds and removes the booking.  A successful transition
    stores the new status and [responded_at = utcnow] and leaves the
    request of the booking as it was.  After a successful approve, a second
    approve answers 400 and changes nothing.  A rejected booking, and a
    booking just rejected, cannot be deleted by anyone. *)
Theorem booking_status_state_machine
    (db : Store) (booking_id : string) (booking : Booking.t)
    (uid : string) (msg : option string) (utcnow : datetime) :
  bookings db !! booking_id = Some booking →
  let approve := approve_booking_request db booking_id msg uid utcnow in
  let reject := reject_booking_request db booking_id msg uid utcnow in
  let cancel := cancel_booking_request db booking_id uid utcnow in
  let delete := delete_booking db booking_id uid in
  let bad_request {A} : Response A * Store :=
    (HTTPException HTTP_400_BAD_REQUEST, db) in
  let transitioned (r : Response (option Booking.t) * Store) new_status :=
    ∃ booking', r = (APIResponse (Some booking'),
                     with_booking db booking_id booking')
                ∧ Booking.status booking' = new_status
                ∧ Booking.responded_at booking' = Some utcnow
                ∧ same_request booking booking' in
  (owns_spot_of db booking uid → Booking.status booking ≠ pending →
   approve = bad_request ∧ reject = bad_request)
  ∧ (succeeded approve.1 ∨ succeeded reject.1 →
     Booking.status booking = pending)
  ∧ (Booking.finder_id booking = uid →
     Booking.status booking ∉ [pending; approved] → cancel = bad_request)
  ∧ (succeeded cancel.1 → Booking.status booking ∈ [pending; approved])
  ∧ (has_access db booking uid = true →
     Booking.status booking ∉ [cancelled; completed] → delete = bad_request)
  ∧ (succeeded delete.1 → Booking.status booking ∈ [cancelled; completed])
  ∧ (succeeded approve.1 → transitioned approve approved)
  ∧ (succeeded reject.1 → transitioned reject rejected)
  ∧ (succeeded cancel.1 → transitioned cancel cancelled)
  ∧ (succeeded approve.1 → ∀ msg' utcnow',
       approve_booking_request approve.2 booking_id msg' uid utcnow'
       = (HTTPException HTTP_400_BAD_REQUEST, approve.2))
  ∧ (Booking.status booking = rejected → ∀ uid',
       ¬ succeeded (delete_booking db booking_id uid').1
       ∧ (delete_booking db booking_id uid').2 = db)
  ∧ (succeeded reject.1 → ∀ uid',
       ¬ succeeded (delete_booking reject.2 booking_id uid').1
       ∧ (delete_booking reject.2 booking_id uid').2 = reject.2)
  ∧ (owns_spot_of db booking uid → Booking.status booking = pending →
     transitioned approve approved ∧ transitioned reject rejected)
  ∧ (Booking.finder_id booking = uid →
     Booking.status booking ∈ [pending; approved] →
     transitioned cancel cancelled)
  ∧ (has_access db booking uid = true →
     Booking.status booking ∈ [cancelled; completed] →
     delete = (APIResponse (), without_booking db booking_id)).
Proof.
  intros Hb approve reject cancel delete bad_request transitioned.
  assert (Hrejected : ∀ db0 b0 uid',
            bookings db0 !! booking_id = Some b0 →
            Booking.status b0 = rejected →
            ¬ succeeded (delete_booking db0 booking_id uid').1
            ∧ (delete_booking db0 booking_id uid').2 = db0).
  { intros db0 b0 uid' Hb0 Hst. split.
    - intros Hok. apply (delete_succeeded_inv db0 booking_id b0 Hb0) in Hok.
      destruct Hok as [_ [H | H]]; congruence.
    - unfold delete_booking. store_ops. rewrite Hb0.
      destruct (has_access db0 b0 uid'); [|reflexivity]. cbn [negb].
      rewrite decide_True; [reflexivity|].
      rewrite Hst, !elem_of_cons, elem_of_nil.
      intros [H | [H | []]]; discriminate. }
  assert (Hresp : ∀ new_status,
            succeeded (respond_to_booking_request new_status db booking_id
                         msg uid utcnow).1 →
            transitioned (respond_to_booking_request new_status db booking_id
                            msg uid utcnow) new_status).
  { intros new_status Hok.
    destruct (respond_succeeded_inv db booking_id booking Hb _ _ _ _ Hok)
      as [Hown Hst].
    eexists. split.
    - apply (respond_pending db booking_id booking Hb); assumption.
    - repeat split. }
  assert (Hcancel : Booking.finder_id booking = uid →
            Booking.status booking = pending
            ∨ Booking.status booking = approved →
            transitioned cancel cancelled).
  { intros Hf Hst. eexists. split.
    - apply (cancel_cancellable db booking_id booking Hb); assumption.
    - repeat split. }
  repeat apply conj.
  - intros Hown Hst. split;
      apply (respond_not_pending db booking_id booking Hb); assumption.
  - intros [Hok | Hok];
      apply (respond_succeeded_inv db booking_id booking Hb) in Hok;
      apply Hok.
  - intros Hf Hst. rewrite !elem_of_cons, elem_of_nil in Hst.
    apply (cancel_not_cancellable db booking_id booking Hb); tauto.
  - intros Hok. apply (cancel_succeeded_inv db booking_id booking Hb) in Hok.
    rewrite !elem_of_cons. tauto.
  - intros Hacc Hst. rewrite !elem_of_cons, elem_of_nil in Hst.
    apply (delete_not_deletable db booking_id booking Hb); tauto.
  - intros Hok. apply (delete_succeeded_inv db booking_id booking Hb) in Hok.
    rewrite !elem_of_cons. tauto.
  - apply Hresp.
  - apply Hresp.
  - intros Hok.
    destruct (cancel_succeeded_inv db booking_id booking Hb _ _ Hok)
      as [Hf Hst].
    by apply Hcancel.
  - intros Hok msg' utcnow'.
    destruct (respond_succeeded_inv db booking_id booking Hb _ _ _ _ Hok)
      as [Hown Hst].
    subst approve. unfold approve_booking_request in *.
    rewrite (respond_pending db booking_id booking Hb _ _ _ _ Hown Hst).
    cbn [snd].
    eapply respond_not_pending.
    + cbn. apply lookup_insert_eq.
    + exact Hown.
    + cbn. discriminate.
  - intros Hst uid'. exact (Hrejected db booking uid' Hb Hst).
  - intros Hok uid'.
    destruct (Hresp rejected Hok) as (b' & Hr & Hst & _).
    subst reject. unfold reject_booking_request in *. rewrite Hr. cbn [snd].
    apply (Hrejected _ b'); [cbn; apply lookup_insert_eq | exact Hst].
  - intros Hown Hst.
    assert (Hok : ∀ new_status,
              succeeded (respond_to_booking_request new_status db booking_id
                           msg uid utcnow).1).
    { intros new_status.
      rewrite (respond_pending db booking_id booking Hb new_status msg uid
                 utcnow Hown Hst). exact I. }
    split; apply Hresp, Hok.
  - intros Hf Hst. apply Hcancel; [exact Hf|].
    rewrite !elem_of_cons, elem_of_nil in Hst. tauto.
  - intros Hacc Hst.
    apply (delete_deletable db booking_id booking Hb); [exact Hacc|].
    rewrite !elem_of_cons, elem_of_nil in Hst. tauto.
Qed.

Lemma booking_status_state_machine_witness :
  bookings db_b !! "booking-a" = Some booking_a
  ∧ bookings db_c !! "booking-a" = Some booking_c
  ∧ (∃ b, approve_booking_request db_b "booking-a" None "owner-1" 7
          = (APIResponse (Some b), with_booking db_b "booking-a" b)
          ∧ Booking.status b = approved)
  ∧ (∃ b, reject_booking_request db_b "booking-a" None "owner-1" 7
          = (APIResponse (Some b), with_booking db_b "booking-a" b)
          ∧ Booking.status b = rejected)
  ∧ (∃ b, cancel_booking_request db_b "booking-a" "finder-1" 8
          = (APIResponse (Some b), with_booking db_b "booking-a" b)
          ∧ Booking.status b = cancelled
          ∧ Booking.responded_at b = Some 8%Z)
  ∧ delete_booking db_c "booking-a" "finder-1"
    = (APIResponse (), without_booking db_c "booking-a")
  ∧ ∀ msg' utcnow',
      approve_booking_request
        (approve_booking_request db_b "booking-a" None "owner-1" 7).2
        "booking-a" msg' "owner-1" utcnow'
      = (HTTPException HTTP_400_BAD_REQUEST,
         (approve_booking_request db_b "booking-a" None "owner-1" 7).2).
Proof.
  assert (Hb : bookings db_b !! "booking-a" = Some booking_a)
    by apply lookup_singleton_eq.
  assert (Hc : bookings db_c !! "booking-a" = Some booking_c)
    by apply lookup_singleton_eq.
  assert (Hown : owns_spot_of db_b booking_a "owner-1")
    by (exists spot_a; split; [apply lookup_singleton_eq | reflexivity]).
  assert (Hpending : Booking.status booking_a ∈ [pending; approved])
    by apply list_elem_of_here.
  assert (Hcancelled : Booking.status booking_c ∈ [cancelled; completed])
    by apply list_elem_of_here.
  split; [exact Hb|]. split; [exact Hc|].
  pose proof (booking_status_state_machine db_b "booking-a" booking_a
                "owner-1" None 7 Hb) as Howner.
  pose proof (booking_status_state_machine db_b "booking-a" booking_a
                "finder-1" None 8 Hb) as Hfinder.
  pose proof (booking_status_state_machine db_c "booking-a" booking_c
                "finder-1" None 9 Hc) as Hdelete.
  cbv zeta in Howner, Hfinder, Hdelete.
  destruct Howner
    as (_ & _ & _ & _ & _ & _ & _ & _ & _ & Hagain & _ & _ & Hresp & _ & _).
  destruct Hfinder as (_ & _ & _ & _ & _ & _ & _ & _ & _ & _ & _ & _ & _
                       & Hcancel & _).
  destruct Hdelete as (_ & _ & _ & _ & _ & _ & _ & _ & _ & _ & _ & _ & _
                       & _ & Hdel).
  destruct (Hresp Hown eq_refl)
    as [(ba & Hra & Hsa & _) (br & Hrr & Hsr & _)].
  destruct (Hcancel eq_refl Hpending) as (bc & Hrc & Hsc & Htc & _).
  split; [exists ba; split; assumption|].
  split; [exists br; split; assumption|].
  split; [exists bc; split; [exact Hrc | split; assumption]|].
  split; [exact (Hdel eq_refl Hcancelled)|].
  apply Hagain. rewrite Hra. exact I.
Defined.

(** ** Ownership checks *)

(** C3.  A caller who is not the owner of an existing spot gets 403 from
    [update_parking_spot] and [delete_parking_spot], whatever the update
    payload; a caller who is not the owner of the spot of an existing
    booking gets 403 from approve and reject, whatever the status and the
    response message; a caller who is not the finder of an existing booking
    gets 403 from cancel.  In each case the store is returned as it was. *)
Theorem ownership_checks (db : Store) (uid : string) :
  (∀ spot_id existing_spot spot_update utcnow,
     parking_spots db !! spot_id = Some existing_spot →
     Spot.owner_id existing_spot ≠ uid →
     update_parking_spot db spot_id spot_update uid utcnow
     = (HTTPException HTTP_403_FORBIDDEN, db))
  ∧ (∀ spot_id existing_spot,
       parking_spots db !! spot_id = Some existing_spot →
       Spot.owner_id existing_spot ≠ uid →
       delete_parking_spot db spot_id uid
       = (HTTPException HTTP_403_FORBIDDEN, db))
  ∧ (∀ booking_id booking spot response_message utcnow,
       bookings db !! booking_id = Some booking →
       parking_spots db !! Booking.spot_id booking = Some spot →
       Spot.owner_id spot ≠ uid →
       approve_booking_request db booking_id response_message uid utcnow
       = (HTTPException HTTP_403_FORBIDDEN, db)
       ∧ reject_booking_request db booking_id response_message uid utcnow
         = (HTTPException HTTP_403_FORBIDDEN, db))
  ∧ (∀ booking_id booking utcnow,
       bookings db !! booking_id = Some booking →
       Booking.finder_id booking ≠ uid →
       cancel_booking_request db booking_id uid utcnow
       = (HTTPException HTTP_403_FORBIDDEN, db)).
Proof.
  repeat apply conj.
  - intros spot_id s u t Hs Ho. unfold update_parking_spot. store_ops.
    rewrite Hs. rewrite decide_True by exact Ho. reflexivity.
  - intros spot_id s Hs Ho. unfold delete_parking_spot. store_ops.
    rewrite Hs. rewrite decide_True by exact Ho. reflexivity.
  - intros booking_id b s m t Hb Hs Ho.
    split; eapply respond_not_owner; eassumption.
  - intros booking_id b t Hb Hf. eapply cancel_not_finder; eassumption.
Qed.

Lemma ownership_checks_witness :
  parking_spots db_b !! "spot-a" = Some spot_a
  ∧ Spot.owner_id spot_a ≠ "intruder"
  ∧ bookings db_b !! "booking-a" = Some booking_a
  ∧ Booking.finder_id booking_a ≠ "intruder"
  ∧ delete_parking_spot db_b "spot-a" "intruder"
    = (HTTPException HTTP_403_FORBIDDEN, db_b)
  ∧ approve_booking_request db_b "booking-a" None "intruder" 9
    = (HTTPException HTTP_403_FORBIDDEN, db_b)
  ∧ cancel_booking_request db_b "booking-a" "intruder" 9
    = (HTTPException HTTP_403_FORBIDDEN, db_b).
Proof.
  assert (Hs : parking_spots db_b !! "spot-a" = Some spot_a)
    by apply lookup_singleton_eq.
  assert (Ho : Spot.owner_id spot_a ≠ "intruder") by discriminate.
  assert (Hb : bookings db_b !! "booking-a" = Some booking_a)
    by apply lookup_singleton_eq.
  assert (Hf : Booking.finder_id booking_a ≠ "intruder") by discriminate.
  destruct (ownership_checks db_b "intruder") as (_ & Hdel & Hresp & Hcancel).
  split; [exact Hs|]. split; [exact Ho|].
  split; [exact Hb|]. split; [exact Hf|].
  split; [exact (Hdel "spot-a" spot_a Hs Ho)|].
  split; [exact (proj1 (Hresp "booking-a" booking_a spot_a None 9%Z Hb Hs Ho))|].
  exact (Hcancel "booking-a" booking_a 9%Z Hb Hf).
Defined.

(** ** Failed booking operations write nothing *)

Lemma run_failure (op : BookingOperation) (db : Store) (status_code : Z) :
  (run op db).1 = Some status_code →
  (run op db).2 = db
  ∧ status_code ∈ [HTTP_404_NOT_FOUND; HTTP_403_FORBIDDEN; HTTP_400_BAD_REQUEST;
                   HTTP_500_INTERNAL_SERVER_ERROR].
Proof.
  destruct op; cbn [run]; unfold error_code;
    unfold create_booking_request, approve_booking_request,
      reject_booking_request, respond_to_booking_request,
      cancel_booking_request, delete_booking;
    store_ops;
    repeat (case_match; simplify_eq/=; try done);
    intros; simplify_eq/=; split; try reflexivity;
    rewrite !elem_of_cons; auto.
Qed.

(** C10.  Whenever create, approve, reject, cancel or delete fails with
    404, 403 or 400, the three collections are exactly as before the
    call. *)
Theorem failed_booking_operation_leaves_store
    (op : BookingOperation) (db : Store) (status_code : Z) :
  (run op db).1 = Some status_code →
  status_code ∈ [HTTP_404_NOT_FOUND; HTTP_403_FORBIDDEN; HTTP_400_BAD_REQUEST] →
  users (run op db).2 = users db
  ∧ parking_spots (run op db).2 = parking_spots db
  ∧ bookings (run op db).2 = bookings db.
Proof.
  intros Hfail _. destruct (run_failure op db status_code Hfail) as [-> _].
  repeat split.
Qed.

Lemma failed_booking_operation_leaves_store_witness :
  (run (Delete "booking-a" "finder-1") db_b).1 = Some HTTP_400_BAD_REQUEST
  ∧ HTTP_400_BAD_REQUEST
    ∈ [HTTP_404_NOT_FOUND; HTTP_403_FORBIDDEN; HTTP_400_BAD_REQUEST]
  ∧ bookings (run (Delete "booking-a" "finder-1") db_b).2 = bookings db_b.
Proof.
  assert (H1 : (run (Delete "booking-a" "finder-1") db_b).1
               = Some HTTP_400_BAD_REQUEST) by reflexivity.
  assert (H2 : HTTP_400_BAD_REQUEST
               ∈ [HTTP_404_NOT_FOUND; HTTP_403_FORBIDDEN; HTTP_400_BAD_REQUEST])
    by (rewrite !elem_of_cons; auto).
  split; [exact H1|]. split; [exact H2|].
  exact (proj2 (proj2 (failed_booking_operation_leaves_store
                         (Delete "booking-a" "finder-1") db_b
                         HTTP_400_BAD_REQUEST H1 H2))).
Defined.

(** ** Partial update of a spot *)

(** C9.  When the owner updates an existing spot, the call succeeds and
    replaces the document by one in which every field supplied in the
    payload has the supplied value, every field not supplied has its
    previous value, and [updated_at] is the time of the call, also when the
    payload supplies nothing; [id], [owner_id], [owner_name] and
    [created_at] are never changed, nor is any other document. *)
Theorem update_parking_spot_frame
    (db : Store) (spot_id : string) (existing_spot : Spot.t)
    (spot_update : ParkingSpotUpdate.t) (utcnow : datetime) :
  parking_spots db !! spot_id = Some existing_spot →
  let uid := Spot.owner_id existing_spot in
  let supplied {A} (new old : A) (field : option A) :=
    match field with Some v => new = v | None => new = old end in
  ∃ s,
    update_parking_spot db spot_id spot_update uid utcnow
    = (APIResponse (Some s),
       mkStore (users db) (<[spot_id := s]> (parking_spots db)) (bookings db))
    ∧ Spot.updated_at s = utcnow
    ∧ supplied (Spot.address s) (Spot.address existing_spot)
        (ParkingSpotUpdate.address spot_update)
    ∧ supplied (Spot.latitude s) (Spot.latitude existing_spot)
        (ParkingSpotUpdate.latitude spot_update)
    ∧ supplied (Spot.longitude s) (Spot.longitude existing_spot)
        (ParkingSpotUpdate.longitude spot_update)
    ∧ supplied (Spot.hourly_rate s) (Spot.hourly_rate existing_spot)
        (ParkingSpotUpdate.hourly_rate spot_update)
    ∧ supplied (Spot.is_available s) (Spot.is_available existing_spot)
        (ParkingSpotUpdate.is_available spot_update)
    ∧ supplied (Spot.availability_start s)
        (Spot.availability_start existing_spot)
        (ParkingSpotUpdate.availability_start spot_update)
    ∧ supplied (Spot.availability_end s) (Spot.availability_end existing_spot)
        (ParkingSpotUpdate.availability_end spot_update)
    ∧ supplied (Spot.max_vehicle_size s) (Spot.max_vehicle_size existing_spot)
        (ParkingSpotUpdate.max_vehicle_size spot_update)
    ∧ supplied (Spot.description s) (Spot.description existing_spot)
        (ParkingSpotUpdate.description spot_update)
    ∧ supplied (Spot.image_url s) (Spot.image_url existing_spot)
        (Some <$> ParkingSpotUpdate.image_url spot_update)
    ∧ Spot.id s = Spot.id existing_spot
    ∧ Spot.owner_id s = Spot.owner_id existing_spot
    ∧ Spot.owner_name s = Spot.owner_name existing_spot
    ∧ Spot.created_at s = Spot.created_at existing_spot.
Proof.
  intros Hs uid supplied. subst uid supplied.
  unfold update_parking_spot. store_ops. rewrite Hs.
  rewrite decide_False by (intros H; apply H; reflexivity).
  cbn. rewrite lookup_insert_eq.
  eexists. split; [reflexivity|].
  destruct spot_update as [a la lo h av s0 e0 m d i]; cbn.
  destruct a, la, lo, h, av, s0, e0, m, d, i; cbn; repeat split.
Qed.

Lemma update_parking_spot_frame_witness :
  parking_spots db_a !! "spot-a" = Some spot_a
  ∧ ∃ s, update_parking_spot db_a "spot-a" no_update "owner-1" 77
         = (APIResponse (Some s),
            mkStore ∅ (<["spot-a" := s]> (parking_spots db_a)) ∅)
         ∧ Spot.updated_at s = 77%Z
         ∧ Spot.hourly_rate s = 10%R
         ∧ Spot.address s = "1 Main St".
Proof.
  assert (Hs : parking_spots db_a !! "spot-a" = Some spot_a)
    by apply lookup_singleton_eq.
  split; [exact Hs|].
  destruct (update_parking_spot_frame db_a "spot-a" spot_a no_update 77 Hs)
    as (s & Hr & Hup & Haddr & _ & _ & Hrate & _).
  exists s. split; [exact Hr|]. split; [exact Hup|].
  split; [exact Hrate | exact Haddr].
Defined.

(** ** Pagination *)

Lemma ceil_div_spec (a b : Z) :
  (0 < b)%Z →
  ((ceil_div a b - 1) * b < a ≤ ceil_div a b * b)%Z.
Proof.
  intros Hb. unfold ceil_div.
  pose proof (Z.mul_div_le (- a) b Hb).
  pose proof (Z.mul_succ_div_gt (- a) b Hb).
  nia.
Qed.

(** [ceil_div] is the ceiling of the quotient of the reals. *)
Lemma ceil_div_is_ceiling (a b : Z) :
  (0 < b)%Z →
  (IZR (ceil_div a b) - 1 < IZR a / IZR b <= IZR (ceil_div a b))%R.
Proof.
  intros Hb. destruct (ceil_div_spec a b Hb) as [Hlo Hhi].
  assert (HbR : (0 < IZR b)%R) by (apply IZR_lt in Hb; exact Hb).
  apply IZR_lt in Hlo. apply IZR_le in Hhi.
  rewrite mult_IZR, minus_IZR in Hlo. rewrite mult_IZR in Hhi.
  split.
  - apply Rmult_lt_reg_r with (IZR b); [exact HbR|].
    unfold Rdiv. rewrite Rmult_assoc, Rinv_l by lra. lra.
  - apply Rmult_le_reg_r with (IZR b); [exact HbR|].
    unfold Rdiv. rewrite Rmult_assoc, Rinv_l by lra. lra.
Qed.

Lemma slice_lookup {A} (l : list A) (start stop : Z) (i : nat) :
  (0 ≤ start ≤ stop)%Z →
  slice l start stop !! i
  = if decide (Z.of_nat i < stop - start)%Z
    then l !! (Z.to_nat start + i)%nat else None.
Proof.
  intros H. unfold slice.
  destruct (decide (Z.of_nat i < stop - start)%Z) as [Hi | Hi].
  - rewrite lookup_take_lt by lia. apply lookup_drop.
  - apply lookup_take_ge. lia.
Qed.

(** C6.  For a page number of at least 1 and a page size between 1 and
    100, whenever the filter loop completes with a list (it does when no
    filter is supplied), the search succeeds; it reports as [total] the
    number of spots of that list and as [pages] the ceiling of
    [total / size]; the items are those at the positions [(page-1)*size] up
    to, and not including, [page*size] of the list; and a page after the
    last one has no items, with [total] and [pages] as for every other
    page.  When a test of the loop raises, the answer is 500. *)
Theorem get_parking_spots_pagination
    (raises : R → R → R → R → bool) (db : Store)
    (search : option ParkingSpotSearch.t) (page size : Z) :
  (1 ≤ page)%Z → (1 ≤ size ≤ 100)%Z →
  match apply_search_filters raises search
          (FirebaseService.get_available_parking_spots db) with
  | None =>
      get_parking_spots raises db search page size
      = HTTPException HTTP_500_INTERNAL_SERVER_ERROR
  | Some filtered =>
      ∃ r,
        get_parking_spots raises db search page size = APIResponse r
        ∧ r = paginate filtered page size
        ∧ Pagination.total (SpotsPage.pagination r) = Z.of_nat (length filtered)
        ∧ Pagination.page (SpotsPage.pagination r) = page
        ∧ Pagination.size (SpotsPage.pagination r) = size
        ∧ (IZR (Pagination.pages (SpotsPage.pagination r)) - 1
           < IZR (Z.of_nat (length filtered)) / IZR size
           <= IZR (Pagination.pages (SpotsPage.pagination r)))%R
        ∧ (∀ i : nat,
             SpotsPage.spots r !! i
             = if decide (Z.of_nat i < size)%Z
               then filtered !! (Z.to_nat ((page - 1) * size) + i)%nat
               else None)
        ∧ (Pagination.pages (SpotsPage.pagination r) < page →
           SpotsPage.spots r = [])%Z
  end.
Proof.
  intros Hpage Hsize.
  unfold get_parking_spots.
  replace (negb _) with false; cycle 1.
  { symmetry. apply negb_false_iff. rewrite !andb_true_iff, !Z.leb_le. lia. }
  destruct (apply_search_filters raises search _) as [filtered|];
    [|reflexivity].
  eexists. split; [reflexivity|]. split; [reflexivity|]. cbn.
  split; [reflexivity|]. split; [reflexivity|]. split; [reflexivity|].
  split; [apply ceil_div_is_ceiling; lia|].
  split.
  - intros i. rewrite slice_lookup by nia.
    destruct (decide (Z.of_nat i < (page - 1) * size + size - (page - 1) * size)%Z),
             (decide (Z.of_nat i < size)%Z); try lia; reflexivity.
  - intros Hlast.
    pose proof (ceil_div_spec (Z.of_nat (length filtered)) size
                  ltac:(lia)) as [_ Hhi].
    unfold slice. rewrite drop_ge; [apply take_nil|]. nia.
Qed.

Lemma get_parking_spots_pagination_witness :
  (1 ≤ 2)%Z ∧ (1 ≤ 20 ≤ 100)%Z
  ∧ ∃ r, get_parking_spots never_raises db_a None 2 20 = APIResponse r
         ∧ Pagination.total (SpotsPage.pagination r) = 1%Z
         ∧ SpotsPage.spots r = [].
Proof.
  assert (H1 : (1 ≤ 2)%Z) by lia.
  assert (H2 : (1 ≤ 20 ≤ 100)%Z) by lia.
  split; [exact H1|]. split; [exact H2|].
  pose proof (get_parking_spots_pagination never_raises db_a None 2 20 H1 H2)
    as H.
  change (apply_search_filters never_raises None
            (FirebaseService.get_available_parking_spots db_a))
    with (Some [spot_a]) in H.
  destruct H as (r & Hr & _ & Htotal & _ & _ & Hpages & _ & Hlast).
  exists r. split; [exact Hr|]. split; [exact Htotal|].
  apply Hlast.
  enough (IZR (Pagination.pages (SpotsPage.pagination r)) < IZR 2)%R
    by (apply lt_IZR; assumption).
  destruct Hpages as [Hlo _].
  change (Z.of_nat (length [spot_a])) with 1%Z in Hlo. lra.
Defined.

(** ** The Haversine distance *)

Section haversine.
Local Open Scope R_scope.

Lemma calculate_distance_unfold lat1 lon1 lat2 lon2 :
  calculate_distance lat1 lon1 lat2 lon2
  = 6371000 * (2 * atan2 (sqrt (haversine_a lat1 lon1 lat2 lon2))
                     (sqrt (1 - haversine_a lat1 lon1 lat2 lon2))).
Proof. reflexivity. Qed.

Lemma sin_half_diff_sqr (x y : R) :
  sin ((y - x) / 2) ^ 2 = sin ((x - y) / 2) ^ 2.
Proof.
  replace ((y - x) / 2) with (- ((x - y) / 2)) by lra.
  rewrite sin_neg. ring.
Qed.

Lemma haversine_a_sym lat1 lon1 lat2 lon2 :
  haversine_a lat1 lon1 lat2 lon2 = haversine_a lat2 lon2 lat1 lon1.
Proof.
  unfold haversine_a.
  rewrite (sin_half_diff_sqr (radians lat1) (radians lat2)).
  rewrite (sin_half_diff_sqr (radians lon1) (radians lon2)).
  ring.
Qed.

Lemma calculate_distance_sym lat1 lon1 lat2 lon2 :
  calculate_distance lat1 lon1 lat2 lon2
  = calculate_distance lat2 lon2 lat1 lon1.
Proof.
  rewrite !calculate_distance_unfold.
  rewrite (haversine_a_sym lat1 lon1 lat2 lon2). reflexivity.
Qed.

Lemma sqr_le_1 (s c : R) : s * s + c * c = 1 → 0 <= s ^ 2 <= 1.
Proof. intros H. nra. Qed.

Lemma sin_sqr_range (x : R) : 0 <= sin x ^ 2 <= 1.
Proof.
  apply (sqr_le_1 _ (cos x)). pose proof (sin2_cos2 x) as H.
  unfold Rsqr in H. exact H.
Qed.

Lemma cos_sqr_range (x : R) : 0 <= cos x ^ 2 <= 1.
Proof.
  apply (sqr_le_1 _ (sin x)). pose proof (sin2_cos2 x) as H.
  unfold Rsqr in H. lra.
Qed.

(** [sin²((y-x)/2) + cos x cos y = cos²((x+y)/2)]. *)
Lemma haversine_identity (x y : R) :
  sin ((y - x) / 2) ^ 2 + cos x * cos y = cos ((x + y) / 2) ^ 2.
Proof.
  replace ((y - x) / 2) with (y / 2 - x / 2) by lra.
  replace ((x + y) / 2) with (x / 2 + y / 2) by lra.
  replace (cos x) with (cos (2 * (x / 2))) by (f_equal; lra).
  replace (cos y) with (cos (2 * (y / 2))) by (f_equal; lra).
  rewrite sin_minus, cos_plus, !cos_2a. ring.
Qed.

(** The arguments of the two square roots are never negative, so
    [math.sqrt] is always defined on them. *)
Lemma haversine_a_range lat1 lon1 lat2 lon2 :
  0 <= haversine_a lat1 lon1 lat2 lon2 <= 1.
Proof.
  unfold haversine_a.
  set (x := radians lat1). set (y := radians lat2).
  set (d := (radians lon2 - radians lon1) / 2).
  pose proof (haversine_identity x y) as Hid.
  pose proof (sin_sqr_range ((y - x) / 2)) as Hp.
  pose proof (cos_sqr_range ((x + y) / 2)) as Hq.
  pose proof (sin_sqr_range d) as Hs.
  set (p := sin ((y - x) / 2) ^ 2) in *.
  set (q := cos ((x + y) / 2) ^ 2) in *.
  set (s := sin d ^ 2) in *.
  replace (p + cos x * cos y * s) with (p * (1 - s) + q * s)
    by (rewrite <- Hid; ring).
  nra.
Qed.

Lemma atan2_0_1 : atan2 0 1 = 0.
Proof.
  unfold atan2. rewrite decide_True by lra.
  replace (0 / 1) with 0 by lra. apply atan_0.
Qed.

Lemma atan2_diag (s : R) : 0 < s → atan2 s s = PI / 4.
Proof.
  intros Hs. unfold atan2. rewrite decide_True by exact Hs.
  replace (s / s) with 1 by (field; lra). apply atan_1.
Qed.

Lemma calculate_distance_same lat lon : calculate_distance lat lon lat lon = 0.
Proof.
  rewrite calculate_distance_unfold.
  assert (Ha : haversine_a lat lon lat lon = 0).
  { unfold haversine_a.
    replace ((radians lat - radians lat) / 2) with 0 by lra.
    replace ((radians lon - radians lon) / 2) with 0 by lra.
    rewrite sin_0. ring. }
  rewrite Ha, Rminus_0_r, sqrt_0, sqrt_1, atan2_0_1. ring.
Qed.

Lemma calculate_distance_quarter :
  calculate_distance 0 0 0 90 = 6371000 * PI / 2.
Proof.
  rewrite calculate_distance_unfold.
  assert (Ha : haversine_a 0 0 0 90 = 1 / 2).
  { unfold haversine_a, radians.
    replace ((0 * PI / 180 - 0 * PI / 180) / 2) with 0 by lra.
    replace ((90 * PI / 180 - 0 * PI / 180) / 2) with (PI / 4) by lra.
    replace (0 * PI / 180) with 0 by lra.
    rewrite sin_0, cos_0, sin_PI4.
    assert (H2 : sqrt 2 * sqrt 2 = 2) by (apply sqrt_sqrt; lra).
    assert (Hpos : 0 < sqrt 2) by (apply sqrt_lt_R0; lra).
    field_simplify; [|lra]. replace (sqrt 2 ^ 2) with 2 by (simpl; lra).
    lra. }
  rewrite Ha. replace (1 - 1 / 2) with (1 / 2) by lra.
  rewrite atan2_diag by (apply sqrt_lt_R0; lra). lra.
Qed.

(** Seven digits of [PI], from the series of [atan (1/3)] and
    [atan (1/7)]. *)
Lemma PI_7_digits : 31415926 / 10000000 < PI < 31415927 / 10000000.
Proof.
  pose proof (PI_2_3_7_ineq 3) as [Hlo Hhi].
  unfold sum_f_R0, tg_alt, PI_2_3_7_tg, Ratan_seq in Hlo, Hhi.
  simpl in Hlo, Hhi.
  split; lra.
Qed.

(** C7.  [calculate_distance] is symmetric in its two points and is 0 on
    equal points.  It is the Haversine formula with radius 6371000: with
    [a = sin²(Δlat/2) + cos lat1 · cos lat2 · sin²(Δlon/2)] on angles in
    radians, [a] lies in [[0, 1]] and the distance is
    [2 · 6371000 · atan2 (√a, √(1-a))].  From (0,0) to (0,90°) it is
    [6371000 · PI / 2], which lies between 10007543 and 10007544. *)
Theorem calculate_distance_haversine :
  (∀ lat1 lon1 lat2 lon2,
     calculate_distance lat1 lon1 lat2 lon2
     = calculate_distance lat2 lon2 lat1 lon1)
  ∧ (∀ lat lon, calculate_distance lat lon lat lon = 0)
  ∧ (∀ lat1 lon1 lat2 lon2,
       let dlat := lat2 * PI / 180 - lat1 * PI / 180 in
       let dlon := lon2 * PI / 180 - lon1 * PI / 180 in
       let a := sin (dlat / 2) ^ 2
                + cos (lat1 * PI / 180) * cos (lat2 * PI / 180)
                  * sin (dlon / 2) ^ 2 in
       0 <= a <= 1
       ∧ calculate_distance lat1 lon1 lat2 lon2
         = 2 * 6371000 * atan2 (sqrt a) (sqrt (1 - a)))
  ∧ calculate_distance 0 0 0 90 = 6371000 * PI / 2
  ∧ 10007543 < calculate_distance 0 0 0 90 < 10007544.
Proof.
  repeat apply conj.
  - apply calculate_distance_sym.
  - apply calculate_distance_same.
  - intros lat1 lon1 lat2 lon2 dlat dlon a. split.
    + apply (haversine_a_range lat1 lon1 lat2 lon2).
    + rewrite calculate_distance_unfold.
      change (haversine_a lat1 lon1 lat2 lon2) with a. ring.
  - apply calculate_distance_quarter.
  - rewrite calculate_distance_quarter. pose proof PI_7_digits. lra.
  - rewrite calculate_distance_quarter. pose proof PI_7_digits. lra.
Qed.

End haversine.

(** ** The stable sort by key *)

Section sort_by.
Context {A : Type} (key : A → R).

Lemma insert_by_perm (x : A) (l : list A) : insert_by key x l ≡ₚ x :: l.
Proof.
  induction l as [|y l IH]; cbn; [reflexivity|].
  case_decide; [reflexivity|].
  rewrite IH. apply Permutation_swap.
Qed.

Lemma sort_by_perm (l : list A) : sort_by key l ≡ₚ l.
Proof.
  induction l as [|x l IH]; cbn; [reflexivity|].
  rewrite insert_by_perm, IH. reflexivity.
Qed.

Lemma insert_by_sorted (x : A) (l : list A) :
  StronglySorted (key_le key) l → StronglySorted (key_le key) (insert_by key x l).
Proof.
  induction 1 as [|y l Hl IH Hy]; cbn.
  - repeat constructor.
  - case_decide as Hxy.
    + constructor; [constructor; assumption|].
      constructor; [exact Hxy|].
      eapply Forall_impl; [exact Hy|].
      intros z Hz. unfold key_le in *. lra.
    + constructor; [exact IH|].
      rewrite insert_by_perm. constructor; [|exact Hy].
      unfold key_le. lra.
Qed.

Lemma sort_by_sorted (l : list A) : StronglySorted (key_le key) (sort_by key l).
Proof.
  induction l as [|x l IH]; cbn; [constructor|].
  apply insert_by_sorted, IH.
Qed.

(** Stability: the elements of any one key keep the order of the input. *)
Lemma insert_by_stable (d : R) (x : A) (l : list A) :
  filter (λ y, key y = d) (insert_by key x l)
  = filter (λ y, key y = d) (x :: l).
Proof.
  induction l as [|y l IH]; cbn [insert_by]; [reflexivity|].
  case_decide as Hxy; [reflexivity|].
  rewrite filter_cons, IH, !filter_cons.
  destruct (decide (key y = d)) as [Hy|Hy], (decide (key x = d)) as [Hx|Hx];
    try reflexivity.
  exfalso. apply Hxy. rewrite Hx, Hy. lra.
Qed.

Lemma sort_by_stable (d : R) (l : list A) :
  filter (λ y, key y = d) (sort_by key l) = filter (λ y, key y = d) l.
Proof.
  induction l as [|x l IH]; cbn [sort_by]; [reflexivity|].
  rewrite insert_by_stable, !filter_cons, IH. reflexivity.
Qed.

End sort_by.

(** ** The nearby search *)

Section nearby.
Context (latitude longitude radius : R).

Local Abbreviation distance_of := (distance_of latitude longitude).
Local Abbreviation annotate := (annotate latitude longitude).

Lemma filter_by_distance_eq (spots : list Spot.t) :
  filter_by_distance latitude longitude radius spots
  = annotate <$> filter (λ spot, (distance_of spot <= radius)%R) spots.
Proof.
  induction spots as [|spot spots IH]; cbn [filter_by_distance];
    [reflexivity|].
  rewrite filter_cons. fold (distance_of spot).
  case_decide; [rewrite fmap_cons, IH; reflexivity | exact IH].
Qed.

Lemma filter_annotate (d : R) (spots : list Spot.t) :
  NearbySpot.spot <$> filter (λ ns, NearbySpot.distance ns = d) (annotate <$> spots)
  = filter (λ spot, distance_of spot = d) spots.
Proof.
  induction spots as [|spot spots IH]; [reflexivity|].
  rewrite fmap_cons, !filter_cons. cbn [annotate NearbySpot.distance].
  case_decide; [rewrite fmap_cons|]; rewrite IH; reflexivity.
Qed.

Lemma fmap_spot_annotate (spots : list Spot.t) :
  NearbySpot.spot <$> (annotate <$> spots) = spots.
Proof.
  induction spots as [|spot spots IH]; [reflexivity|].
  rewrite !fmap_cons, IH. reflexivity.
Qed.

End nearby.

(** C8.  For a latitude in [[-90, 90]], a longitude in [[-180, 180]] and
    a radius in [[100, 50000]], every list that the nearby search returns
    consists of exactly the available spots whose distance to the centre
    is at most the radius, each paired with that distance; it is sorted by
    distance, non-decreasing; and the spots of any one distance appear in
    the order of the input.  The search returns a list when no call of
    [calculate_distance] raises, and answers 500 when one does. *)
Theorem get_nearby_parking_spots_spec
    (raises : R → R → R → R → bool) (db : Store)
    (latitude longitude radius : R) :
  (-90 <= latitude <= 90)%R → (-180 <= longitude <= 180)%R →
  (100 <= radius <= 50000)%R →
  let spots := FirebaseService.get_available_parking_spots db in
  let distance_of := distance_of latitude longitude in
  let response :=
    get_nearby_parking_spots raises db latitude longitude radius in
  (∀ result, response = APIResponse result →
     (∀ ns, ns ∈ result →
        (NearbySpot.distance ns <= radius)%R
        ∧ NearbySpot.distance ns = distance_of (NearbySpot.spot ns)
        ∧ NearbySpot.spot ns ∈ spots)
     ∧ NearbySpot.spot <$> result
       ≡ₚ filter (λ spot, (distance_of spot <= radius)%R) spots
     ∧ StronglySorted
         (λ x y, (NearbySpot.distance x <= NearbySpot.distance y)%R) result
     ∧ (∀ d, NearbySpot.spot <$> filter (λ ns, NearbySpot.distance ns = d) result
             = filter (λ spot, distance_of spot = d)
                 (filter (λ spot, (distance_of spot <= radius)%R) spots)))
  ∧ ((∀ spot, spot ∈ spots →
        raises latitude longitude (Spot.latitude spot) (Spot.longitude spot)
        = false) →
     ∃ result, response = APIResponse result)
  ∧ ((∃ spot, spot ∈ spots
              ∧ raises latitude longitude (Spot.latitude spot)
                  (Spot.longitude spot) = true) →
     response = HTTPException HTTP_500_INTERNAL_SERVER_ERROR).
Proof.
  intros Hlat Hlon Hrad spots distance_of0 response. subst response.
  unfold get_nearby_parking_spots. rewrite decide_True by tauto.
  fold spots.
  destruct (existsb _ spots) eqn:Hraise.
  - split; [intros result [=]|]. split; [|reflexivity].
    intros Hnone. apply existsb_exists in Hraise as (spot & Hin & Hr).
    apply list_elem_of_In in Hin. rewrite (Hnone spot Hin) in Hr.
    discriminate.
  - split; [|split; [intros _; eexists; reflexivity|]].
    2: { intros (spot & Hin & Hr).
         assert (existsb (λ spot, raises latitude longitude
                            (Spot.latitude spot) (Spot.longitude spot)) spots
                 = true) as Hex.
         { apply existsb_exists. exists spot. split; [|exact Hr].
           by apply list_elem_of_In. }
         rewrite Hex in Hraise. discriminate. }
    intros result [= <-].
    unfold nearby. rewrite filter_by_distance_eq.
    set (within := filter _ spots).
    assert (Hperm : sort_by NearbySpot.distance
                      (annotate latitude longitude <$> within)
                    ≡ₚ annotate latitude longitude <$> within)
      by apply sort_by_perm.
    repeat apply conj.
    + intros ns Hns. rewrite Hperm in Hns.
      apply list_elem_of_fmap in Hns as (spot & -> & Hspot).
      apply list_elem_of_filter in Hspot as [Hle Hin]. cbn.
      split; [exact Hle|]. split; [reflexivity | exact Hin].
    + rewrite Hperm, fmap_spot_annotate. reflexivity.
    + apply (sort_by_sorted NearbySpot.distance).
    + intros d. rewrite sort_by_stable. apply filter_annotate.
Qed.

Lemma get_nearby_parking_spots_spec_witness :
  (-90 <= 0 <= 90)%R ∧ (-180 <= 0 <= 180)%R ∧ (100 <= 100 <= 50000)%R
  ∧ ∃ result,
      get_nearby_parking_spots never_raises db_a 0 0 100 = APIResponse result
      ∧ StronglySorted
          (λ x y, (NearbySpot.distance x <= NearbySpot.distance y)%R) result
      ∧ ∀ ns, ns ∈ result → (NearbySpot.distance ns <= 100)%R.
Proof.
  assert (H1 : (-90 <= 0 <= 90)%R) by lra.
  assert (H2 : (-180 <= 0 <= 180)%R) by lra.
  assert (H3 : (100 <= 100 <= 50000)%R) by lra.
  split; [exact H1|]. split; [exact H2|]. split; [exact H3|].
  destruct (get_nearby_parking_spots_spec never_raises db_a 0 0 100 H1 H2 H3)
    as (Hall & Hreturns & _).
  destruct (Hreturns (λ _ _, eq_refl)) as (result & Hr).
  destruct (Hall result Hr) as (Hin & _ & Hsorted & _).
  exists result. split; [exact Hr|]. split; [exact Hsorted|].
  intros ns Hns. exact (proj1 (Hin ns Hns)).
Defined.

(** ** The search filters *)

Lemma truthy_zero : truthy (Some 0%R) = false.
Proof. cbn. apply bool_decide_eq_false. intros H. apply H. reflexivity. Qed.

Lemma truthy_nonzero (x : R) : x ≠ 0%R → truthy (Some x) = true.
Proof. intros H. cbn. apply bool_decide_eq_true. exact H. Qed.

(** The loop keeps a spot when none of the four tests, taken in the order
    location, price, vehicle size, time, drops it. *)
Lemma spot_matches_filters raises (search : ParkingSpotSearch.t) (spot : Spot.t) :
  spot_matches raises search spot = Some true
  ↔ location_filter raises search spot = Some false
    ∧ price_filter search spot = false
    ∧ vehicle_size_filter search spot = false
    ∧ time_filter search spot = Some false.
Proof.
  unfold spot_matches.
  destruct (location_filter raises search spot) as [[]|]; cbn;
    [split; [discriminate | intros (? & ? & ? & ?); discriminate]|
    |split; [discriminate | intros (? & ? & ? & ?); discriminate]].
  destruct (price_filter search spot);
    [split; [discriminate | intros (? & ? & ? & ?); discriminate]|].
  destruct (vehicle_size_filter search spot);
    [split; [discriminate | intros (? & ? & ? & ?); discriminate]|].
  destruct (time_filter search spot) as [[]|]; cbn;
    [split; [discriminate | intros (? & ? & ? & ?); discriminate]|
    |split; [discriminate | intros (? & ? & ? & ?); discriminate]].
  split; [intros _; repeat split | reflexivity].
Qed.

(** The time test, when both ends of the window are supplied and are
    aware. *)
Lemma time_filter_keeps (search : ParkingSpotSearch.t) (spot : Spot.t)
    (start_time end_time : Z) :
  ParkingSpotSearch.start_time search = Some (DateTime.Aware start_time) →
  ParkingSpotSearch.end_time search = Some (DateTime.Aware end_time) →
  time_filter search spot = Some false
  ↔ (Spot.availability_start spot ≤ start_time)%Z
    ∧ (end_time ≤ Spot.availability_end spot)%Z.
Proof.
  intros Hs He. unfold time_filter. rewrite Hs, He. cbn.
  destruct (start_time <? Spot.availability_start spot)%Z eqn:H1.
  - apply Z.ltb_lt in H1. split; [discriminate | lia].
  - apply Z.ltb_ge in H1.
    destruct (Spot.availability_end spot <? end_time)%Z eqn:H2.
    + apply Z.ltb_lt in H2. split; [discriminate | lia].
    + apply Z.ltb_ge in H2. split; [lia | reflexivity].
Qed.

(** The time test is not made when one end of the window is missing. *)
Lemma time_filter_needs_both (search : ParkingSpotSearch.t) (spot : Spot.t) :
  ParkingSpotSearch.start_time search = None
  ∨ ParkingSpotSearch.end_time search = None →
  time_filter search spot = Some false.
Proof.
  unfold time_filter. intros [-> | ->]; [reflexivity|].
  destruct (ParkingSpotSearch.start_time search); reflexivity.
Qed.

(** The price test, for a bound that is not zero: it drops the spots that
    are dearer than the bound. *)
Lemma price_filter_nonzero (search : ParkingSpotSearch.t) (spot : Spot.t)
    (max_price : R) :
  ParkingSpotSearch.max_price search = Some max_price →
  max_price ≠ 0%R →
  price_filter search spot = false ↔ ¬ (max_price < Spot.hourly_rate spot)%R.
Proof.
  intros Hm Hnz. unfold price_filter. rewrite Hm, truthy_nonzero by exact Hnz.
  cbn [andb]. apply bool_decide_eq_false.
Qed.

(** The price test is not made for the bound zero. *)
Lemma price_filter_zero (search : ParkingSpotSearch.t) (spot : Spot.t) :
  ParkingSpotSearch.max_price search = Some 0%R →
  price_filter search spot = false.
Proof. intros Hm. unfold price_filter. rewrite Hm, truthy_zero. reflexivity. Qed.

(** The location test is not made, and [calculate_distance] is not called,
    when the latitude, the longitude or the radius is zero. *)
Lemma location_filter_zero raises (search : ParkingSpotSearch.t) (spot : Spot.t) :
  ParkingSpotSearch.latitude search = Some 0%R
  ∨ ParkingSpotSearch.longitude search = Some 0%R
  ∨ ParkingSpotSearch.radius search = Some 0%R →
  location_filter raises search spot = Some false.
Proof.
  unfold location_filter. intros [-> | [-> | ->]]; rewrite truthy_zero.
  - reflexivity.
  - rewrite andb_false_r. reflexivity.
  - rewrite andb_false_r. reflexivity.
Qed.

(** A loop that completes has kept exactly the spots that match. *)
Lemma filter_spots_Some raises search (spots filtered : list Spot.t) :
  filter_spots raises search spots = Some filtered →
  filtered = filter (λ spot, spot_matches raises search spot = Some true) spots
  ∧ ∀ spot, spot ∈ spots → is_Some (spot_matches raises search spot).
Proof.
  revert filtered. induction spots as [|spot spots IH]; intros filtered.
  - intros [= <-]. split; [reflexivity|]. intros spot Hin.
    by apply elem_of_nil in Hin.
  - cbn [filter_spots]. intros H.
    destruct (spot_matches raises search spot) as [keep|] eqn:Hkeep;
      [|discriminate].
    destruct (filter_spots raises search spots) as [rest|];
      [|discriminate].
    cbn in H. injection H as <-. destruct (IH rest eq_refl) as [-> Hall].
    split.
    + rewrite filter_cons, Hkeep.
      destruct keep; [by rewrite decide_True | by rewrite decide_False].
    + intros x Hx. apply elem_of_cons in Hx as [->|Hx];
        [rewrite Hkeep; by eexists | by apply Hall].
Qed.

(** The loop completes when no iteration raises. *)
Lemma filter_spots_completes raises search (spots : list Spot.t) :
  (∀ spot, spot ∈ spots → is_Some (spot_matches raises search spot)) →
  is_Some (filter_spots raises search spots).
Proof.
  induction spots as [|spot spots IH]; intros Hall; [by eexists|].
  cbn [filter_spots].
  destruct (Hall spot) as [keep ->]; [apply list_elem_of_here|].
  destruct IH as [rest ->];
    [intros x Hx; apply Hall; by apply list_elem_of_further|].
  by eexists.
Qed.

(** A bound on the price that is not zero is respected by every spot of
    the result: none is dearer than the bound. *)
Lemma max_price_respected_when_nonzero raises
    (search : ParkingSpotSearch.t) (spots filtered : list Spot.t)
    (max_price : R) :
  ParkingSpotSearch.max_price search = Some max_price →
  max_price ≠ 0%R →
  apply_search_filters raises (Some search) spots = Some filtered →
  ∀ spot, spot ∈ filtered → ¬ (max_price < Spot.hourly_rate spot)%R.
Proof.
  intros Hm Hnz Hloop spot Hin. cbn in Hloop.
  apply filter_spots_Some in Hloop as [-> _].
  apply list_elem_of_filter in Hin as [Hmatch _].
  apply spot_matches_filters in Hmatch as (_ & Hprice & _).
  apply (price_filter_nonzero search spot max_price Hm Hnz). exact Hprice.
Qed.

(** Without a search, or with a search that supplies nothing, the loop
    keeps the full list of available spots, which is then paginated. *)
Lemma search_without_filters raises (spots : list Spot.t) :
  apply_search_filters raises None spots = Some spots
  ∧ apply_search_filters raises (Some no_filters) spots = Some spots.
Proof.
  split; [reflexivity|]. cbn.
  induction spots as [|spot spots IH]; [reflexivity|].
  cbn [filter_spots]. rewrite IH. reflexivity.
Qed.

Lemma available_db_a : FirebaseService.get_available_parking_spots db_a = [spot_a].
Proof. reflexivity. Qed.

(** C4.  With [max_price = 0] the price test is not made: the search over
    the store holding the one spot [spot_a], whose hourly rate is 10,
    returns that spot. *)
Theorem max_price_zero_returns_dearer_spot (raises : R → R → R → R → bool) :
  get_parking_spots raises db_a (Some search_max_price_0) 1 20
  = APIResponse (SpotsPage.mk [spot_a] (Pagination.mk 1 1 20 1))
  ∧ ParkingSpotSearch.max_price search_max_price_0 = Some 0%R
  ∧ (0 < Spot.hourly_rate spot_a)%R.
Proof.
  split; [|split; [reflexivity | cbn; lra]].
  unfold get_parking_spots. cbn [negb andb Z.leb Z.compare Pos.compare
    Pos.compare_cont]. rewrite available_db_a.
  unfold apply_search_filters. cbn [filter_spots].
  assert (Hkeep : spot_matches raises search_max_price_0 spot_a = Some true).
  { apply spot_matches_filters.
    split; [reflexivity|].
    split; [apply (price_filter_zero search_max_price_0 spot_a eq_refl)|].
    split; reflexivity. }
  rewrite Hkeep. reflexivity.
Qed.

(** C5.  With a latitude of 0 the location test is not made: the search
    centred on (0, 90°) with a radius of 100 m returns [spot_a], which lies
    more than 100 m away. *)
Theorem latitude_zero_returns_distant_spot (raises : R → R → R → R → bool) :
  get_parking_spots raises db_a (Some search_equator) 1 20
  = APIResponse (SpotsPage.mk [spot_a] (Pagination.mk 1 1 20 1))
  ∧ (100 < calculate_distance 0 90 (Spot.latitude spot_a)
             (Spot.longitude spot_a))%R.
Proof.
  split.
  - unfold get_parking_spots. cbn [negb andb Z.leb Z.compare Pos.compare
      Pos.compare_cont]. rewrite available_db_a.
    unfold apply_search_filters. cbn [filter_spots].
    assert (Hkeep : spot_matches raises search_equator spot_a = Some true).
    { apply spot_matches_filters.
      split; [apply (location_filter_zero raises search_equator spot_a
                       (or_introl eq_refl))|].
      split; [reflexivity|]. split; reflexivity. }
    rewrite Hkeep. reflexivity.
  - cbn [spot_a Spot.latitude Spot.longitude].
    rewrite calculate_distance_sym, calculate_distance_quarter.
    pose proof PI_7_digits. lra.
Qed.

(** * Further properties *)

(** ** What the handlers write *)

Local Ltac handlers :=
  unfold register_user, login_user, update_user_profile, delete_user_profile,
    create_parking_spot, update_parking_spot, delete_parking_spot,
    create_booking_request, approve_booking_request, reject_booking_request,
    respond_to_booking_request, cancel_booking_request, delete_booking,
    FirebaseService.get_user, FirebaseService.create_user,
    FirebaseService.update_user, FirebaseService.delete_user,
    FirebaseService.create_parking_spot in *;
  store_ops.

Local Ltac pick_write :=
  lazymatch goal with
  | |- ∃ w, mkStore (<[?k := ?u]> _) _ _ = _ ∧ _ => exists (SetUser k u)
  | |- ∃ w, mkStore (delete ?k _) _ _ = _ ∧ _ => exists (DeleteUser k)
  | |- ∃ w, mkStore _ (<[?k := ?s]> _) _ = _ ∧ _ => exists (SetSpot k s)
  | |- ∃ w, mkStore _ (delete ?k _) _ = _ ∧ _ => exists (DeleteSpotDoc k)
  | |- ∃ w, mkStore _ _ (<[?k := ?b]> _) = _ ∧ _ => exists (SetBooking k b)
  | |- ∃ w, mkStore _ _ (delete ?k _) = _ ∧ _ => exists (DeleteBooking k)
  | |- ∃ w, _ = _ ∧ _ => exists NoWrite
  end.

Lemma perform_write (auth_get_user : string → bool) (op : Operation)
    (db : Store) :
  ∃ w, perform auth_get_user op db = write w db ∧ handler_write op db w.
Proof.
  destruct op as [| | | | | | |[]]; cbn [perform run]; unfold error_code;
    handlers;
    repeat (case_match; simplify_eq/=);
    pick_write; (split; [reflexivity|]); cbn [handler_write];
    try exact I; try (eexists; reflexivity).
  all: try (left; done).
  all: try (right; eexists; split; [eassumption|]; done).
  all: try (eexists; split; [eassumption|]).
  all: try (right; eexists; split; [eassumption|]).
  all: unfold same_request; cbn; rewrite ?elem_of_cons, ?elem_of_nil in *.
  all: try (eexists; eassumption).
  all: repeat split; try reflexivity.
  all: try (left; apply dec_stable; assumption).
  all: try tauto.
  all: match goal with H : ¬ (_ ∉ _) |- _ => pose proof (dec_stable H) as Hin end;
    rewrite !elem_of_cons, elem_of_nil in Hin; exact Hin.
Qed.

(** ** Invariants of the store *)

Lemma perform_ids_match_keys auth_get_user op db :
  ids_match_keys db → ids_match_keys (perform auth_get_user op db).
Proof.
  intros (Hu & Hs & Hb).
  destruct (perform_write auth_get_user op db) as (w & -> & Hw).
  destruct w as [|k u|k|k s|k|k b|k]; cbn in *; [done|..];
    repeat apply conj; try assumption; intros k' x Hx; cbn in Hx.
  - apply lookup_insert_Some in Hx as [[<- <-]|[Hne Hx]]; [|by apply Hu].
    destruct Hw as [[_ Hk]|(u0 & Hu0 & -> & _)]; [done | by apply Hu].
  - apply lookup_delete_Some in Hx as [_ Hx]. by apply Hu.
  - apply lookup_insert_Some in Hx as [[<- <-]|[Hne Hx]]; [|by apply Hs].
    destruct Hw as [Hk|(s0 & Hs0 & -> & _)]; [done | by apply Hs].
  - apply lookup_delete_Some in Hx as [_ Hx]. by apply Hs.
  - apply lookup_insert_Some in Hx as [[<- <-]|[Hne Hx]]; [|by apply Hb].
    destruct Hw as [(_ & Hk & _)|(b0 & Hb0 & (-> & _) & _)];
      [done | by apply Hb].
  - apply lookup_delete_Some in Hx as [_ Hx]. by apply Hb.
Qed.

Lemma perform_statuses_written auth_get_user op db :
  statuses_written db → statuses_written (perform auth_get_user op db).
Proof.
  intros Hst.
  destruct (perform_write auth_get_user op db) as (w & -> & Hw).
  destruct w as [|k u|k|k s|k|k b|k]; cbn in *; try done; intros k' x Hx;
    cbn in Hx.
  - apply lookup_insert_Some in Hx as [[<- <-]|[Hne Hx]]; [|by eapply Hst].
    unfold written_statuses.
    destruct Hw as [(_ & _ & ->)|(b0 & _ & _ & _ & Hin)].
    + rewrite !elem_of_cons. tauto.
    + rewrite !elem_of_cons, elem_of_nil in *. tauto.
  - apply lookup_delete_Some in Hx as [_ Hx]. by eapply Hst.
Qed.

Lemma perform_all_invariant (P : Store → Prop) auth_get_user :
  (∀ op db, P db → P (perform auth_get_user op db)) →
  ∀ ops db, P db → P (perform_all auth_get_user ops db).
Proof.
  intros Hstep ops. unfold perform_all.
  induction ops as [|op ops IH]; intros db Hdb; cbn; [exact Hdb|].
  apply IH, Hstep, Hdb.
Qed.

(** X1.  In every store that the handlers can build from the empty store,
    each user, spot and booking document carries the id of the key it is
    stored under. *)
Theorem reachable_ids_match_keys
    (auth_get_user : string → bool) (ops : list Operation) :
  ids_match_keys (perform_all auth_get_user ops empty_store).
Proof.
  apply (perform_all_invariant ids_match_keys).
  - intros op db. apply perform_ids_match_keys.
  - repeat split; intros k x Hx; cbn in Hx; by rewrite lookup_empty in Hx.
Qed.

(** X2.  In every store that the handlers can build from the empty store,
    no booking is [completed] or [confirmed]; so a booking that
    [delete_booking] accepts there is a [cancelled] one. *)
Theorem reachable_deletable_is_cancelled
    (auth_get_user : string → bool) (ops : list Operation)
    (booking_id uid : string) :
  let db := perform_all auth_get_user ops empty_store in
  (∀ k b, bookings db !! k = Some b →
          Booking.status b ≠ completed ∧ Booking.status b ≠ confirmed)
  ∧ (succeeded (delete_booking db booking_id uid).1 →
     ∃ b, bookings db !! booking_id = Some b ∧ Booking.status b = cancelled).
Proof.
  intros db.
  assert (Hst : statuses_written db).
  { apply (perform_all_invariant statuses_written).
    - intros op db0. apply perform_statuses_written.
    - intros k x Hx. cbn in Hx. by rewrite lookup_empty in Hx. }
  split.
  - intros k b Hb. specialize (Hst k b Hb). unfold written_statuses in Hst.
    rewrite !elem_of_cons, elem_of_nil in Hst.
    split; intros Heq; rewrite Heq in Hst;
      destruct Hst as [H|[H|[H|[H|[]]]]]; discriminate.
  - intros Hok.
    destruct (bookings db !! booking_id) as [b|] eqn:Hb.
    + exists b. split; [reflexivity|].
      destruct (delete_succeeded_inv db booking_id b Hb uid Hok)
        as [_ [Hc|Hc]]; [exact Hc|].
      specialize (Hst booking_id b Hb). unfold written_statuses in Hst.
      rewrite Hc, !elem_of_cons, elem_of_nil in Hst.
      destruct Hst as [H|[H|[H|[H|[]]]]]; discriminate.
    + unfold delete_booking in Hok. store_ops. rewrite Hb in Hok.
      destruct Hok.
Qed.

Lemma reachable_deletable_is_cancelled_witness :
  succeeded
    (delete_booking (perform_all (λ _, true) history_a empty_store)
       "booking-1" "finder-1").1
  ∧ ∃ b, bookings (perform_all (λ _, true) history_a empty_store)
           !! "booking-1" = Some b
         ∧ Booking.status b = cancelled.
Proof.
  assert (H : succeeded
                (delete_booking (perform_all (λ _, true) history_a empty_store)
                   "booking-1" "finder-1").1) by exact I.
  split; [exact H|].
  exact (proj2 (reachable_deletable_is_cancelled (λ _, true) history_a
                  "booking-1" "finder-1") H).
Defined.

(** ** The frame of a call *)

(** X3.  A call writes at most one document: there is a key such that the
    documents under every other key, in all three collections, are as
    before; and at most one collection changes. *)
Theorem perform_writes_one_document
    (auth_get_user : string → bool) (op : Operation) (db : Store) :
  let db' := perform auth_get_user op db in
  (∃ key, ∀ k, k ≠ key →
     users db' !! k = users db !! k
     ∧ parking_spots db' !! k = parking_spots db !! k
     ∧ bookings db' !! k = bookings db !! k)
  ∧ ((parking_spots db' = parking_spots db ∧ bookings db' = bookings db)
     ∨ (users db' = users db ∧ bookings db' = bookings db)
     ∨ (users db' = users db ∧ parking_spots db' = parking_spots db)).
Proof.
  intros db'. subst db'.
  destruct (perform_write auth_get_user op db) as (w & -> & _).
  destruct w as [|k u|k|k s|k|k b|k]; cbn.
  - split; [exists ""; done | left; done].
  - split; [exists k; intros k' Hne; by rewrite lookup_insert_ne | left; done].
  - split; [exists k; intros k' Hne; by rewrite lookup_delete_ne | left; done].
  - split; [exists k; intros k' Hne; by rewrite lookup_insert_ne
           | right; left; done].
  - split; [exists k; intros k' Hne; by rewrite lookup_delete_ne
           | right; left; done].
  - split; [exists k; intros k' Hne; by rewrite lookup_insert_ne
           | right; right; done].
  - split; [exists k; intros k' Hne; by rewrite lookup_delete_ne
           | right; right; done].
Qed.

(** X4.  No call changes the request of a booking: when a booking is in
    the store before and after a call that does not create a document under
    its key, its id, spot, finder, window, total amount, message and
    creation time are the same; so the total amount is never recomputed,
    whatever happens to the spot's rate. *)
Theorem booking_request_is_immutable
    (auth_get_user : string → bool) (op : Operation) (db : Store)
    (booking_id : string) (b b' : Booking.t) :
  created_booking op ≠ Some booking_id →
  bookings db !! booking_id = Some b →
  bookings (perform auth_get_user op db) !! booking_id = Some b' →
  same_request b b'.
Proof.
  intros Hnew Hb Hb'.
  destruct (perform_write auth_get_user op db) as (w & Hw & Hallowed).
  rewrite Hw in Hb'. clear Hw.
  assert (Hrefl : same_request b b) by (repeat split).
  destruct w as [|k u|k|k s|k|k b1|k]; cbn in Hb';
    try (rewrite Hb in Hb'; by simplify_eq).
  - apply lookup_insert_Some in Hb' as [[<- <-]|[Hne Hb']];
      [|rewrite Hb in Hb'; by simplify_eq].
    destruct Hallowed as [(Hc & _)|(b0 & Hb0 & Hsame & _)]; [done|].
    rewrite Hb in Hb0. by simplify_eq.
  - apply lookup_delete_Some in Hb' as [_ Hb'].
    rewrite Hb in Hb'. by simplify_eq.
Qed.

Lemma booking_request_is_immutable_witness :
  created_booking (OnBooking (Approve "booking-a" None "owner-1" 7))
  ≠ Some "booking-a"
  ∧ bookings db_b !! "booking-a" = Some booking_a
  ∧ ∃ b', bookings (perform (λ _, true)
                      (OnBooking (Approve "booking-a" None "owner-1" 7)) db_b)
            !! "booking-a" = Some b'
          ∧ Booking.status b' = approved
          ∧ Booking.total_amount b' = Booking.total_amount booking_a.
Proof.
  assert (H1 : created_booking (OnBooking (Approve "booking-a" None "owner-1" 7))
               ≠ Some "booking-a") by discriminate.
  assert (H2 : bookings db_b !! "booking-a" = Some booking_a)
    by apply lookup_singleton_eq.
  split; [exact H1|]. split; [exact H2|].
  eexists. split; [reflexivity|]. split; [reflexivity|].
  refine (proj1 (proj2 (proj2 (proj2 (proj2 (proj2 (proj2 (proj2
    (booking_request_is_immutable (λ _, true)
       (OnBooking (Approve "booking-a" None "owner-1" 7)) db_b "booking-a"
       booking_a _ H1 H2 eq_refl))))))))).
Defined.

Lemma perform_keeps_rejected auth_get_user op db booking_id b :
  bookings db !! booking_id = Some b →
  Booking.status b = rejected →
  created_booking op ≠ Some booking_id →
  bookings (perform auth_get_user op db) !! booking_id = Some b.
Proof.
  intros Hb Hst Hnew.
  destruct (perform_write auth_get_user op db) as (w & -> & Hw).
  destruct w as [|k u|k|k s|k|k b1|k]; cbn in *; try exact Hb.
  - destruct (decide (k = booking_id)) as [->|Hne];
      [|by rewrite lookup_insert_ne].
    destruct Hw as [(Hc & _)|(b0 & Hb0 & _ & Hin & _)]; [done|].
    rewrite Hb in Hb0. simplify_eq.
    rewrite Hst, !elem_of_cons, elem_of_nil in Hin.
    destruct Hin as [H|[H|[]]]; discriminate.
  - destruct (decide (k = booking_id)) as [->|Hne];
      [|by rewrite lookup_delete_ne].
    destruct Hw as (b0 & Hb0 & Hin).
    rewrite Hb in Hb0. simplify_eq.
    rewrite Hst, !elem_of_cons, elem_of_nil in Hin.
    destruct Hin as [H|[H|[]]]; discriminate.
Qed.

(** X5.  A rejected booking stays in the store, unchanged, through every
    sequence of calls that does not create a booking document under its
    key: no handler changes or removes it. *)
Theorem rejected_booking_stays
    (auth_get_user : string → bool) (ops : list Operation) (db : Store)
    (booking_id : string) (b : Booking.t) :
  bookings db !! booking_id = Some b →
  Booking.status b = rejected →
  Forall (λ op, created_booking op ≠ Some booking_id) ops →
  bookings (perform_all auth_get_user ops db) !! booking_id = Some b.
Proof.
  intros Hb Hst Hops. revert db Hb. unfold perform_all.
  induction Hops as [|op ops Hop _ IH]; intros db Hb; cbn; [exact Hb|].
  apply IH. by apply perform_keeps_rejected.
Qed.

Lemma rejected_booking_stays_witness :
  bookings db_r !! "booking-r" = Some booking_r
  ∧ Booking.status booking_r = rejected
  ∧ bookings
      (perform_all (λ _, true)
         [OnBooking (Delete "booking-r" "finder-1");
          OnBooking (Cancel "booking-r" "finder-1" 9);
          DeleteSpot "spot-a" "owner-1"] db_r) !! "booking-r"
    = Some booking_r.
Proof.
  assert (H1 : bookings db_r !! "booking-r" = Some booking_r)
    by apply lookup_singleton_eq.
  assert (H2 : Booking.status booking_r = rejected) by reflexivity.
  split; [exact H1|]. split; [exact H2|].
  apply (rejected_booking_stays (λ _, true) _ db_r "booking-r" booking_r H1 H2).
  repeat constructor; discriminate.
Defined.

(** ** Registration, login and the profile *)

(** X6.  [register_user] answers 400 and writes nothing when the identity
    provider does not know the uid, also when a user with that uid exists;
    it answers 409 and writes nothing when the provider knows the uid and
    the user exists; otherwise it stores the user with the fields of the
    payload, the first reading of the clock as [created_at] and the second
    as [last_login_at]; the profile then returns that record, and a second
    registration of the uid answers 409. *)
Theorem register_user_outcomes
    (auth_get_user : string → bool) (db : Store)
    (user_data : UserCreate.t) (utcnow utcnow' : datetime) :
  let uid := UserCreate.firebase_uid user_data in
  let r := register_user auth_get_user db user_data utcnow utcnow' in
  let user :=
    User.mk uid (UserCreate.email user_data) (UserCreate.name user_data)
      (UserCreate.phone_number user_data)
      (UserCreate.profile_image_url user_data) (UserCreate.role user_data)
      utcnow (Some utcnow') in
  (auth_get_user uid = false → r = (HTTPException HTTP_400_BAD_REQUEST, db))
  ∧ (auth_get_user uid = true → is_Some (users db !! uid) →
     r = (HTTPException HTTP_409_CONFLICT, db))
  ∧ (auth_get_user uid = true → users db !! uid = None →
     r = (APIResponse uid,
          mkStore (<[uid := user]> (users db)) (parking_spots db) (bookings db))
     ∧ get_user_profile r.2 uid = APIResponse user
     ∧ ∀ user_data' t t',
         UserCreate.firebase_uid user_data' = uid →
         register_user auth_get_user r.2 user_data' t t'
         = (HTTPException HTTP_409_CONFLICT, r.2)).
Proof.
  intros uid r user. subst r. unfold register_user, get_user_profile.
  handlers. fold uid. repeat apply conj.
  - intros ->. reflexivity.
  - intros -> [u ->]. reflexivity.
  - intros Hauth Hnone. rewrite Hauth, Hnone. cbn.
    rewrite lookup_insert_eq. repeat split.
    intros user_data' t t' ->. fold uid. rewrite Hauth. cbn.
    rewrite lookup_insert_eq. reflexivity.
Qed.

Lemma register_user_outcomes_witness :
  users db_a !! "finder-1" = None
  ∧ get_user_profile (register_user (λ _, true) db_a user_request_a 1 2).2
      "finder-1" = APIResponse user_a.
Proof.
  assert (H : users db_a !! "finder-1" = None) by apply lookup_empty.
  split; [exact H|].
  exact (proj1 (proj2 (proj2 (proj2 (register_user_outcomes (λ _, true) db_a
                                       user_request_a 1 2)) eq_refl H))).
Defined.

(** X7.  [login_user] of an existing user stores the time of the call as
    [last_login_at] and leaves the other fields alone, but answers with the
    record as it was before the call, so with the previous
    [last_login_at]; for an unknown uid it answers 404 and writes
    nothing. *)
Theorem login_user_answers_previous_record
    (db : Store) (firebase_uid : string) (utcnow : datetime) :
  let r := login_user db firebase_uid utcnow in
  match users db !! firebase_uid with
  | None => r = (HTTPException HTTP_404_NOT_FOUND, db)
  | Some user =>
      r.1 = APIResponse user
      ∧ parking_spots r.2 = parking_spots db
      ∧ bookings r.2 = bookings db
      ∧ (∀ k, k ≠ firebase_uid → users r.2 !! k = users db !! k)
      ∧ get_user_profile r.2 firebase_uid
        = APIResponse
            (User.mk (User.uid user) (User.email user) (User.name user)
               (User.phone_number user) (User.profile_image_url user)
               (User.role user) (User.created_at user) (Some utcnow))
  end.
Proof.
  intros r. subst r. unfold login_user, get_user_profile. handlers.
  destruct (users db !! firebase_uid) as [user|] eqn:Hu; [|reflexivity].
  cbn. rewrite lookup_insert_eq. repeat split.
  intros k Hne. by rewrite lookup_insert_ne.
Qed.

(** X8.  [update_user_profile] of an existing user answers 400 and writes
    nothing when the payload supplies no field; otherwise it succeeds, each
    supplied field takes the supplied value, each other field keeps its
    value, and [uid], [email], [created_at] and [last_login_at] are never
    changed. *)
Theorem update_user_profile_frame
    (db : Store) (user_update : UserUpdate.t) (firebase_uid : string)
    (existing_user : User.t) :
  users db !! firebase_uid = Some existing_user →
  let r := update_user_profile db user_update firebase_uid in
  let supplied {A} (new old : A) (field : option A) :=
    match field with Some v => new = v | None => new = old end in
  (user_update = UserUpdate.mk None None None None →
   r = (HTTPException HTTP_400_BAD_REQUEST, db))
  ∧ (user_update ≠ UserUpdate.mk None None None None →
     ∃ u, r = (APIResponse (Some u),
               mkStore (<[firebase_uid := u]> (users db))
                 (parking_spots db) (bookings db))
          ∧ supplied (User.name u) (User.name existing_user)
              (UserUpdate.name user_update)
          ∧ supplied (User.phone_number u) (User.phone_number existing_user)
              (Some <$> UserUpdate.phone_number user_update)
          ∧ supplied (User.profile_image_url u)
              (User.profile_image_url existing_user)
              (Some <$> UserUpdate.profile_image_url user_update)
          ∧ supplied (User.role u) (User.role existing_user)
              (UserUpdate.role user_update)
          ∧ User.uid u = User.uid existing_user
          ∧ User.email u = User.email existing_user
          ∧ User.created_at u = User.created_at existing_user
          ∧ User.last_login_at u = User.last_login_at existing_user).
Proof.
  intros Hu r supplied. subst r supplied.
  unfold update_user_profile. handlers. rewrite Hu. split.
  - intros ->. reflexivity.
  - intros Hne. destruct user_update as [n p i ro].
    destruct n, p, i, ro; try (exfalso; apply Hne; reflexivity);
      cbn; rewrite lookup_insert_eq; eexists;
      (split; [reflexivity|]); cbn; repeat split.
Qed.

Lemma update_user_profile_frame_witness :
  users db_u !! "finder-1" = Some user_a
  ∧ rename_update ≠ UserUpdate.mk None None None None
  ∧ ∃ u, (update_user_profile db_u rename_update "finder-1").1
         = APIResponse (Some u)
         ∧ User.name u = "Finley"
         ∧ User.email u = "finn@example.org".
Proof.
  assert (H1 : users db_u !! "finder-1" = Some user_a)
    by apply lookup_singleton_eq.
  assert (H2 : rename_update ≠ UserUpdate.mk None None None None)
    by discriminate.
  split; [exact H1|]. split; [exact H2|].
  destruct (proj2 (update_user_profile_frame db_u rename_update "finder-1"
                     user_a H1) H2)
    as (u & Hr & Hname & _ & _ & _ & _ & Hemail & _).
  exists u. split; [rewrite Hr; reflexivity|].
  split; [exact Hname | exact Hemail].
Defined.

(** X9.  [delete_user_profile] of an existing user removes the user
    document and nothing else: the spots and the bookings of the store are
    as before, so the user's own spots and bookings are still listed; the
    profile then answers 404, as does a second deletion. *)
Theorem delete_user_profile_keeps_spots_and_bookings
    (db : Store) (firebase_uid : string) (existing_user : User.t) :
  users db !! firebase_uid = Some existing_user →
  let r := delete_user_profile db firebase_uid in
  r = (APIResponse (),
       mkStore (delete firebase_uid (users db)) (parking_spots db) (bookings db))
  ∧ get_my_parking_spots r.2 firebase_uid = get_my_parking_spots db firebase_uid
  ∧ get_my_bookings r.2 firebase_uid = get_my_bookings db firebase_uid
  ∧ get_user_profile r.2 firebase_uid = HTTPException HTTP_404_NOT_FOUND
  ∧ delete_user_profile r.2 firebase_uid
    = (HTTPException HTTP_404_NOT_FOUND, r.2).
Proof.
  intros Hu r. subst r.
  unfold delete_user_profile, get_user_profile. handlers. rewrite Hu. cbn.
  rewrite lookup_delete_eq. repeat split.
Qed.

Lemma delete_user_profile_keeps_spots_and_bookings_witness :
  users db_u !! "finder-1" = Some user_a
  ∧ get_my_bookings (delete_user_profile db_u "finder-1").2 "finder-1"
    = get_my_bookings db_u "finder-1".
Proof.
  assert (H1 : users db_u !! "finder-1" = Some user_a)
    by apply lookup_singleton_eq.
  split; [exact H1|].
  exact (proj1 (proj2 (proj2 (delete_user_profile_keeps_spots_and_bookings
                                db_u "finder-1" user_a H1)))).
Defined.

(** ** Spots: creation, deletion and the bookings left behind *)

Lemma elem_of_documents {A} (m : gmap string A) (x : A) :
  x ∈ (map_to_list m).*2 ↔ ∃ k, m !! k = Some x.
Proof.
  rewrite list_elem_of_fmap. split.
  - intros ([k y] & -> & Hin). exists k. by apply elem_of_map_to_list.
  - intros (k & Hk). exists (k, x). split; [reflexivity|].
    by apply elem_of_map_to_list.
Qed.

(** X10.  [create_parking_spot] answers 403 and writes nothing when the
    owner of the payload is not the caller.  Otherwise it succeeds for
    every payload, whatever its rate, coordinates and window: the document
    stored under the fresh id carries that id, every field of the payload,
    the first reading of the clock as [created_at] and the second as
    [updated_at]; it can be read back, it is among the caller's own spots,
    and it is among the available spots exactly when the payload says it
    is available. *)
Theorem create_parking_spot_round_trip
    (db : Store) (spot_data : ParkingSpotCreate.t) (firebase_uid : string)
    (doc_ref : string) (utcnow utcnow' : datetime) :
  let r :=
    create_parking_spot db spot_data firebase_uid doc_ref utcnow utcnow' in
  let spot :=
    Spot.mk doc_ref (ParkingSpotCreate.address spot_data)
      (ParkingSpotCreate.latitude spot_data)
      (ParkingSpotCreate.longitude spot_data)
      (ParkingSpotCreate.hourly_rate spot_data)
      (ParkingSpotCreate.is_available spot_data)
      (ParkingSpotCreate.availability_start spot_data)
      (ParkingSpotCreate.availability_end spot_data)
      (ParkingSpotCreate.max_vehicle_size spot_data)
      (ParkingSpotCreate.description spot_data)
      (ParkingSpotCreate.image_url spot_data)
      (ParkingSpotCreate.owner_id spot_data)
      (ParkingSpotCreate.owner_name spot_data)
      utcnow utcnow' in
  (ParkingSpotCreate.owner_id spot_data ≠ firebase_uid →
   r = (HTTPException HTTP_403_FORBIDDEN, db))
  ∧ (ParkingSpotCreate.owner_id spot_data = firebase_uid →
     r = (APIResponse doc_ref,
          mkStore (users db) (<[doc_ref := spot]> (parking_spots db))
            (bookings db))
     ∧ get_parking_spot r.2 doc_ref = APIResponse spot
     ∧ spot ∈ FirebaseService.get_parking_spots_by_owner r.2 firebase_uid
     ∧ (spot ∈ FirebaseService.get_available_parking_spots r.2
        ↔ ParkingSpotCreate.is_available spot_data = true)).
Proof.
  intros r spot. subst r. unfold create_parking_spot, get_parking_spot.
  handlers. fold spot. split.
  - intros Hne. rewrite decide_True by exact Hne. reflexivity.
  - intros Heq. rewrite decide_False by (intros H; apply H; exact Heq).
    cbn [fst snd]. split; [reflexivity|]. cbn [parking_spots].
    rewrite lookup_insert_eq. split; [reflexivity|]. split; [|split].
    + unfold FirebaseService.get_parking_spots_by_owner.
      apply list_elem_of_filter. split; [exact Heq|].
      apply elem_of_documents. exists doc_ref. cbn. apply lookup_insert_eq.
    + unfold FirebaseService.get_available_parking_spots.
      intros Hin. apply list_elem_of_filter in Hin as [Hav _]. exact Hav.
    + intros Hav. unfold FirebaseService.get_available_parking_spots.
      apply list_elem_of_filter. split; [exact Hav|].
      apply elem_of_documents. exists doc_ref. cbn. apply lookup_insert_eq.
Qed.

Lemma create_parking_spot_round_trip_witness :
  ParkingSpotCreate.owner_id spot_request_a = "owner-1"
  ∧ ∃ spot,
      get_parking_spot
        (create_parking_spot db_a spot_request_a "owner-1" "spot-b" 3 4).2
        "spot-b" = APIResponse spot
      ∧ Spot.id spot = "spot-b"
      ∧ Spot.created_at spot = 3%Z
      ∧ Spot.updated_at spot = 4%Z.
Proof.
  assert (H : ParkingSpotCreate.owner_id spot_request_a = "owner-1")
    by reflexivity.
  split; [exact H|].
  destruct (proj2 (create_parking_spot_round_trip db_a spot_request_a
                     "owner-1" "spot-b" 3 4) H)
    as (_ & Hget & _).
  eexists. split; [exact Hget|]. repeat split.
Defined.

(** X11.  The owner's [delete_parking_spot] succeeds whatever bookings
    refer to the spot, and leaves them in the store.  From then on nobody
    can approve or reject such a booking (403 for every caller), only its
    finder can read it, and the finder can still cancel it while it is
    pending or approved. *)
Theorem delete_parking_spot_orphans_bookings
    (db : Store) (spot_id : string) (spot : Spot.t) :
  parking_spots db !! spot_id = Some spot →
  let r := delete_parking_spot db spot_id (Spot.owner_id spot) in
  r = (APIResponse (),
       mkStore (users db) (delete spot_id (parking_spots db)) (bookings db))
  ∧ get_parking_spot r.2 spot_id = HTTPException HTTP_404_NOT_FOUND
  ∧ ∀ booking_id b,
      bookings db !! booking_id = Some b →
      Booking.spot_id b = spot_id →
      bookings r.2 !! booking_id = Some b
      ∧ (∀ uid msg utcnow,
           approve_booking_request r.2 booking_id msg uid utcnow
           = (HTTPException HTTP_403_FORBIDDEN, r.2)
           ∧ reject_booking_request r.2 booking_id msg uid utcnow
             = (HTTPException HTTP_403_FORBIDDEN, r.2))
      ∧ (∀ uid, uid ≠ Booking.finder_id b →
           get_booking r.2 booking_id uid = HTTPException HTTP_403_FORBIDDEN)
      ∧ (∀ utcnow, Booking.status b ∈ [pending; approved] →
           succeeded
             (cancel_booking_request r.2 booking_id (Booking.finder_id b)
                utcnow).1).
Proof.
  intros Hs r. subst r.
  unfold delete_parking_spot, get_parking_spot. handlers. rewrite Hs.
  rewrite decide_False by (intros H; apply H; reflexivity). cbn.
  rewrite lookup_delete_eq. repeat split; try assumption.
  - unfold approve_booking_request, respond_to_booking_request. store_ops.
    cbn. rewrite H, H0, lookup_delete_eq. reflexivity.
  - unfold reject_booking_request, respond_to_booking_request. store_ops.
    cbn. rewrite H, H0, lookup_delete_eq. reflexivity.
  - intros uid Hne. unfold get_booking, has_access. store_ops. cbn.
    rewrite H. rewrite decide_True by (intros Heq; apply Hne; by rewrite Heq).
    rewrite H0, lookup_delete_eq. reflexivity.
  - intros utcnow Hin. unfold cancel_booking_request. store_ops. cbn.
    rewrite H. rewrite decide_False by (intros Hf; apply Hf; reflexivity).
    rewrite decide_False by (intros Hf; apply Hf; exact Hin).
    cbn. exact I.
Qed.

Lemma delete_parking_spot_orphans_bookings_witness :
  parking_spots db_b !! "spot-a" = Some spot_a
  ∧ bookings db_b !! "booking-a" = Some booking_a
  ∧ Booking.spot_id booking_a = "spot-a"
  ∧ approve_booking_request (delete_parking_spot db_b "spot-a" "owner-1").2
      "booking-a" None "owner-1" 9
    = (HTTPException HTTP_403_FORBIDDEN,
       (delete_parking_spot db_b "spot-a" "owner-1").2).
Proof.
  assert (H1 : parking_spots db_b !! "spot-a" = Some spot_a)
    by apply lookup_singleton_eq.
  assert (H2 : bookings db_b !! "booking-a" = Some booking_a)
    by apply lookup_singleton_eq.
  assert (H3 : Booking.spot_id booking_a = "spot-a") by reflexivity.
  split; [exact H1|]. split; [exact H2|]. split; [exact H3|].
  destruct (delete_parking_spot_orphans_bookings db_b "spot-a" spot_a H1)
    as (_ & _ & Hall).
  destruct (Hall "booking-a" booking_a H2 H3) as (_ & Hresp & _).
  exact (proj1 (Hresp "owner-1" None 9%Z)).
Defined.

(** ** Reading a booking *)

Lemma has_access_spec (db : Store) (b : Booking.t) (uid : string) :
  has_access db b uid = true ↔ Booking.finder_id b = uid ∨ owns_spot_of db b uid.
Proof.
  unfold has_access, owns_spot_of. store_ops.
  destruct (decide (Booking.finder_id b ≠ uid)) as [Hne|Heq].
  - destruct (parking_spots db !! Booking.spot_id b) as [spot|].
    + rewrite bool_decide_eq_true. split.
      * intros Ho. right. exists spot. done.
      * intros [Hf|(s & Hs & Ho)]; [done | by simplify_eq].
    + split; [done|]. intros [Hf|(s & Hs & _)]; done.
  - apply dec_stable in Heq. split; [by left | done].
Qed.

(** X12.  [get_booking] answers 404 for a missing booking, the booking for
    its finder and for the owner of its spot, and 403 for everyone else;
    so every caller for whom approve, reject, cancel or delete succeeds can
    also read the booking. *)
Theorem get_booking_access
    (db : Store) (booking_id uid : string) (msg : option string)
    (utcnow : datetime) :
  match bookings db !! booking_id with
  | None => get_booking db booking_id uid = HTTPException HTTP_404_NOT_FOUND
  | Some b =>
      (Booking.finder_id b = uid ∨ owns_spot_of db b uid →
       get_booking db booking_id uid = APIResponse b)
      ∧ (Booking.finder_id b ≠ uid → ¬ owns_spot_of db b uid →
         get_booking db booking_id uid = HTTPException HTTP_403_FORBIDDEN)
      ∧ (succeeded (approve_booking_request db booking_id msg uid utcnow).1
         ∨ succeeded (reject_booking_request db booking_id msg uid utcnow).1
         ∨ succeeded (cancel_booking_request db booking_id uid utcnow).1
         ∨ succeeded (delete_booking db booking_id uid).1 →
         get_booking db booking_id uid = APIResponse b)
  end.
Proof.
  unfold get_booking. store_ops.
  destruct (bookings db !! booking_id) as [b|] eqn:Hb; [|reflexivity].
  assert (Hyes : Booking.finder_id b = uid ∨ owns_spot_of db b uid →
                 (if negb (has_access db b uid)
                  then HTTPException HTTP_403_FORBIDDEN else APIResponse b)
                 = APIResponse b).
  { intros H. apply has_access_spec in H. rewrite H. reflexivity. }
  repeat apply conj.
  - exact Hyes.
  - intros Hf Ho. destruct (has_access db b uid) eqn:Hacc; [|reflexivity].
    apply has_access_spec in Hacc. tauto.
  - intros [Hok|[Hok|[Hok|Hok]]]; apply Hyes.
    + right. apply (respond_succeeded_inv db booking_id b Hb _ _ _ _ Hok).
    + right. apply (respond_succeeded_inv db booking_id b Hb _ _ _ _ Hok).
    + left. apply (cancel_succeeded_inv db booking_id b Hb _ _ Hok).
    + apply has_access_spec.
      apply (delete_succeeded_inv db booking_id b Hb _ Hok).
Qed.

Lemma get_booking_access_witness :
  Booking.finder_id booking_a = "finder-1"
  ∧ get_booking db_b "booking-a" "finder-1" = APIResponse booking_a.
Proof.
  assert (H : Booking.finder_id booking_a = "finder-1") by reflexivity.
  split; [exact H|].
  pose proof (get_booking_access db_b "booking-a" "finder-1" None 0) as Hg.
  change (bookings db_b !! "booking-a") with (Some booking_a) in Hg.
  exact (proj1 Hg (or_introl H)).
Defined.

(** ** The requests pending for an owner *)

Lemma pending_requests_elem
    (db : Store) (owner_id : string) (b : Booking.t) :
  b ∈ FirebaseService.get_pending_bookings_for_owner db owner_id
  ↔ (∃ k, bookings db !! k = Some b)
    ∧ Booking.status b = pending
    ∧ ∃ k s, parking_spots db !! k = Some s
             ∧ Spot.owner_id s = owner_id
             ∧ Spot.id s = Booking.spot_id b.
Proof.
  unfold FirebaseService.get_pending_bookings_for_owner,
    FirebaseService.get_parking_spots_by_owner.
  set (spots := filter _ _).
  assert (Hbind :
    b ∈ (Spot.id <$> spots) ≫= (λ spot_id,
          filter (λ b, Booking.spot_id b = spot_id ∧ Booking.status b = pending)
            ((map_to_list (bookings db)).*2))
    ↔ (∃ k, bookings db !! k = Some b)
      ∧ Booking.status b = pending
      ∧ ∃ k s, parking_spots db !! k = Some s
               ∧ Spot.owner_id s = owner_id
               ∧ Spot.id s = Booking.spot_id b).
  { rewrite list_elem_of_bind. split.
    - intros (spot_id & Hb & Hid).
      apply list_elem_of_filter in Hb as [[Hsid Hst] Hdoc].
      apply elem_of_documents in Hdoc.
      apply list_elem_of_fmap in Hid as (s & -> & Hs).
      apply list_elem_of_filter in Hs as [Ho Hs].
      apply elem_of_documents in Hs as (k & Hk).
      split; [exact Hdoc|]. split; [exact Hst|]. exists k, s. done.
    - intros (Hdoc & Hst & k & s & Hk & Ho & Hid).
      exists (Spot.id s). split.
      + apply list_elem_of_filter. split; [done|].
        by apply elem_of_documents.
      + apply list_elem_of_fmap. exists s. split; [reflexivity|].
        apply list_elem_of_filter. split; [exact Ho|].
        apply elem_of_documents. by exists k. }
  case_decide as Hnil; [|exact Hbind].
  rewrite <- Hbind, Hnil. reflexivity.
Qed.

(** X13.  A booking is listed by [get_pending_bookings_for_owner] exactly
    when it is a document of the store with status [pending] whose
    [spot_id] is the [id] field of a spot document owned by that user. *)
Theorem pending_requests_membership
    (db : Store) (owner_id : string) (b : Booking.t) :
  b ∈ FirebaseService.get_pending_bookings_for_owner db owner_id
  ↔ (∃ k, bookings db !! k = Some b)
    ∧ Booking.status b = pending
    ∧ ∃ k s, parking_spots db !! k = Some s
             ∧ Spot.owner_id s = owner_id
             ∧ Spot.id s = Booking.spot_id b.
Proof. apply pending_requests_elem. Qed.

(** X14.  In a store whose documents carry their keys as ids, the owner
    can approve every request that is listed as pending for them; the
    approval takes that request, and no other, off the list. *)
Theorem listed_request_can_be_approved
    (db : Store) (owner_id : string) (b : Booking.t)
    (msg : option string) (utcnow : datetime) :
  ids_match_keys db →
  b ∈ FirebaseService.get_pending_bookings_for_owner db owner_id →
  let r := approve_booking_request db (Booking.id b) msg owner_id utcnow in
  (∃ b', r = (APIResponse (Some b'), with_booking db (Booking.id b) b')
         ∧ Booking.status b' = approved
         ∧ Booking.owner_response b' = msg)
  ∧ ∀ b2, b2 ∈ FirebaseService.get_pending_bookings_for_owner r.2 owner_id
          ↔ b2 ∈ FirebaseService.get_pending_bookings_for_owner db owner_id
            ∧ b2 ≠ b.
Proof.
  intros (_ & Hspots & Hbookings) Hin r.
  apply pending_requests_elem in Hin
    as ((k & Hk) & Hst & ks & s & Hks & Ho & Hid).
  assert (Hkey : k = Booking.id b) by (symmetry; by apply Hbookings).
  subst k.
  assert (Hown : owns_spot_of db b owner_id).
  { exists s. split; [|exact Ho].
    rewrite <- Hid. by rewrite (Hspots ks s Hks). }
  pose proof (respond_pending db (Booking.id b) b Hk approved msg owner_id
                utcnow Hown Hst) as Hr.
  cbv zeta in Hr. fold (approve_booking_request db (Booking.id b) msg owner_id
                          utcnow) in Hr.
  subst r. rewrite Hr. split.
  - eexists. split; [reflexivity|]. split; reflexivity.
  - intros b2. rewrite !pending_requests_elem. cbn [snd].
    unfold with_booking. cbn [bookings parking_spots].
    split.
    + intros ((k2 & Hk2) & Hst2 & Hspot2).
      apply lookup_insert_Some in Hk2 as [[_ <-]|[Hne Hk2]];
        [cbn in Hst2; discriminate|].
      split; [split; [by exists k2 | split; [exact Hst2 | exact Hspot2]]|].
      intros ->. apply Hne. by apply Hbookings.
    + intros [((k2 & Hk2) & Hst2 & Hspot2) Hne].
      split; [|split; [exact Hst2 | exact Hspot2]].
      exists k2. rewrite lookup_insert_ne; [exact Hk2|].
      intros <-. rewrite Hk in Hk2. by simplify_eq.
Qed.

Lemma ids_match_keys_db_b : ids_match_keys db_b.
Proof.
  repeat split; intros k x Hx; cbn in Hx.
  - by rewrite lookup_empty in Hx.
  - apply lookup_singleton_Some in Hx as [<- <-]. reflexivity.
  - apply lookup_singleton_Some in Hx as [<- <-]. reflexivity.
Qed.

Lemma listed_request_can_be_approved_witness :
  ids_match_keys db_b
  ∧ booking_a ∈ FirebaseService.get_pending_bookings_for_owner db_b "owner-1"
  ∧ ∃ b', approve_booking_request db_b "booking-a" None "owner-1" 8
          = (APIResponse (Some b'), with_booking db_b "booking-a" b')
          ∧ Booking.status b' = approved.
Proof.
  assert (H1 : ids_match_keys db_b) by exact ids_match_keys_db_b.
  assert (H2 : booking_a
               ∈ FirebaseService.get_pending_bookings_for_owner db_b "owner-1").
  { change (booking_a ∈ [booking_a]). apply list_elem_of_here. }
  split; [exact H1|]. split; [exact H2|].
  destruct (listed_request_can_be_approved db_b "owner-1" booking_a None 8
              H1 H2) as [(b' & Hr & Hst & _) _].
  exists b'. split; [exact Hr | exact Hst].
Defined.

(** ** A booking from creation to deletion *)

Lemma create_booking_request_ok db uid booking_data doc_ref utcnow spot :
  bookable db uid booking_data spot →
  create_booking_request db uid booking_data doc_ref utcnow
  = (APIResponse doc_ref,
     with_booking db doc_ref (new_booking booking_data spot doc_ref utcnow)).
Proof.
  intros (Huid & Hspot & Hav & Hs & He & Hge & Hle).
  unfold create_booking_request, new_booking. store_ops.
  rewrite decide_False by (intros H; apply H; exact Huid).
  rewrite Hspot, Hav. cbn [negb].
  destruct (BookingCreate.start_time booking_data) as [|s]; [discriminate|].
  destruct (BookingCreate.end_time booking_data) as [|e]; [discriminate|].
  cbn in Hge, Hle |- *.
  apply Z.ltb_ge in Hge. rewrite Hge.
  apply Z.ltb_ge in Hle. cbn. rewrite Hle.
  reflexivity.
Qed.

Lemma bookable_request_a : bookable db_a "finder-1" request_a spot_a.
Proof.
  split; [reflexivity|]. split; [apply lookup_singleton_eq|].
  split; [reflexivity|]. split; [reflexivity|]. split; [reflexivity|].
  split; cbn; lia.
Qed.

(** X15.  After a successful [create_booking_request] under a fresh
    document id, the finder's own bookings are the previous ones and the
    new booking, the bookings listed for any other user are the previous
    ones, and, when the spot document carries its key as id, the new
    booking is among the requests pending for the spot's owner. *)
Theorem created_booking_is_listed
    (db : Store) (uid : string) (booking_data : BookingCreate.t)
    (doc_ref : string) (utcnow : datetime) (spot : Spot.t) :
  bookable db uid booking_data spot →
  bookings db !! doc_ref = None →
  let r := create_booking_request db uid booking_data doc_ref utcnow in
  let booking := new_booking booking_data spot doc_ref utcnow in
  r.1 = APIResponse doc_ref
  ∧ FirebaseService.get_user_bookings r.2 uid
    ≡ₚ booking :: FirebaseService.get_user_bookings db uid
  ∧ (∀ other, other ≠ uid →
       FirebaseService.get_user_bookings r.2 other
       ≡ₚ FirebaseService.get_user_bookings db other)
  ∧ (Spot.id spot = BookingCreate.spot_id booking_data →
     booking ∈ FirebaseService.get_pending_bookings_for_owner r.2
                 (Spot.owner_id spot)).
Proof.
  intros Hok Hfresh r booking. subst r.
  rewrite (create_booking_request_ok _ _ _ _ _ _ Hok). fold booking.
  destruct Hok as (Huid & Hspot & _).
  assert (Hdocs : (map_to_list (<[doc_ref := booking]> (bookings db))).*2
                  ≡ₚ booking :: (map_to_list (bookings db)).*2).
  { rewrite (map_to_list_insert _ _ _ Hfresh). reflexivity. }
  unfold FirebaseService.get_user_bookings. cbn.
  repeat apply conj; [reflexivity|..].
  - rewrite Hdocs, filter_cons, decide_True by exact Huid. reflexivity.
  - intros other Hne. rewrite Hdocs, filter_cons, decide_False; [reflexivity|].
    cbn. rewrite Huid. intros Heq. apply Hne. by rewrite Heq.
  - intros Hid. apply pending_requests_elem. cbn.
    split; [exists doc_ref; apply lookup_insert_eq|].
    split; [reflexivity|].
    exists (BookingCreate.spot_id booking_data), spot. done.
Qed.

Lemma created_booking_is_listed_witness :
  bookable db_a "finder-1" request_a spot_a
  ∧ bookings db_a !! "booking-1" = None
  ∧ FirebaseService.get_user_bookings
      (create_booking_request db_a "finder-1" request_a "booking-1" 5).2
      "finder-1"
    ≡ₚ new_booking request_a spot_a "booking-1" 5
       :: FirebaseService.get_user_bookings db_a "finder-1".
Proof.
  assert (H1 : bookable db_a "finder-1" request_a spot_a)
    by exact bookable_request_a.
  assert (H2 : bookings db_a !! "booking-1" = None) by apply lookup_empty.
  split; [exact H1|]. split; [exact H2|].
  exact (proj1 (proj2 (created_booking_is_listed db_a "finder-1" request_a
                         "booking-1" 5 spot_a H1 H2))).
Defined.

(** X16.  A booking that its finder creates under a fresh document id,
    then cancels, then deletes, leaves the store exactly as it was before
    the creation; each of the three calls succeeds. *)
Theorem create_cancel_delete_restores_store
    (db : Store) (uid : string) (booking_data : BookingCreate.t)
    (doc_ref : string) (t1 t2 : datetime) (spot : Spot.t) :
  bookable db uid booking_data spot →
  bookings db !! doc_ref = None →
  let created := create_booking_request db uid booking_data doc_ref t1 in
  let cancelled_ := cancel_booking_request created.2 doc_ref uid t2 in
  let deleted := delete_booking cancelled_.2 doc_ref uid in
  created.1 = APIResponse doc_ref
  ∧ succeeded cancelled_.1
  ∧ deleted.1 = APIResponse ()
  ∧ deleted.2 = db.
Proof.
  intros Hok Hfresh created cancelled_ deleted.
  subst deleted cancelled_ created.
  rewrite (create_booking_request_ok _ _ _ _ _ _ Hok). cbn [fst snd].
  destruct Hok as (Huid & _).
  set (b := new_booking booking_data spot doc_ref t1).
  assert (Hb : bookings (with_booking db doc_ref b) !! doc_ref = Some b)
    by apply lookup_insert_eq.
  rewrite (cancel_cancellable _ doc_ref b Hb uid t2 Huid
             (or_introl eq_refl)).
  cbn [fst snd].
  set (b' := merge_booking _ b).
  assert (Hb' : bookings (with_booking (with_booking db doc_ref b) doc_ref b')
                !! doc_ref = Some b') by apply lookup_insert_eq.
  assert (Hacc : has_access (with_booking (with_booking db doc_ref b) doc_ref b')
                   b' uid = true).
  { apply has_access_spec. left. exact Huid. }
  rewrite (delete_deletable _ doc_ref b' Hb' uid Hacc (or_introl eq_refl)).
  cbn [fst snd]. repeat split.
  unfold without_booking, with_booking. cbn.
  rewrite !delete_insert_eq, delete_id by exact Hfresh.
  destruct db; reflexivity.
Qed.

Lemma create_cancel_delete_restores_store_witness :
  bookable db_a "finder-1" request_a spot_a
  ∧ bookings db_a !! "booking-1" = None
  ∧ (delete_booking
       (cancel_booking_request
          (create_booking_request db_a "finder-1" request_a "booking-1" 5).2
          "booking-1" "finder-1" 6).2
       "booking-1" "finder-1").2 = db_a.
Proof.
  assert (H1 : bookable db_a "finder-1" request_a spot_a)
    by exact bookable_request_a.
  assert (H2 : bookings db_a !! "booking-1" = None) by apply lookup_empty.
  split; [exact H1|]. split; [exact H2|].
  exact (proj2 (proj2 (proj2 (create_cancel_delete_restores_store db_a
                                "finder-1" request_a "booking-1" 5 6 spot_a
                                H1 H2)))).
Defined.

(** ** Paging through a result *)

Lemma page_items_take_drop (spots : list Spot.t) (i : nat) (size : Z) :
  (1 ≤ size)%Z →
  page_items spots (Z.of_nat (S i)) size
  = take (Z.to_nat size) (drop (i * Z.to_nat size) spots).
Proof.
  intros Hsize. unfold page_items, paginate, slice. cbn [SpotsPage.spots].
  replace (Z.to_nat ((Z.of_nat (S i) - 1) * size)) with (i * Z.to_nat size)%nat
    by nia.
  replace (Z.to_nat ((Z.of_nat (S i) - 1) * size + size)
           - i * Z.to_nat size)%nat with (Z.to_nat size) by nia.
  reflexivity.
Qed.

Lemma all_pages_take (spots : list Spot.t) (size : Z) (n : nat) :
  (1 ≤ size)%Z →
  all_pages spots size n = take (n * Z.to_nat size) spots.
Proof.
  intros Hsize. unfold all_pages.
  induction n as [|n IH]; [reflexivity|].
  rewrite seq_S, fmap_app, concat_app, IH. cbn [fmap list_fmap concat].
  rewrite app_nil_r, page_items_take_drop by exact Hsize.
  rewrite take_take_drop. f_equal. lia.
Qed.

(** X18.  For a page size of at least 1, the pages 1 to [pages], one after
    the other, are the filtered list: paging through a result yields every
    spot once, in order. *)
Theorem pages_cover_the_result (spots : list Spot.t) (size : Z) :
  (1 ≤ size)%Z →
  let pages := Pagination.pages (SpotsPage.pagination (paginate spots 1 size)) in
  all_pages spots size (Z.to_nat pages) = spots.
Proof.
  intros Hsize pages. subst pages. cbn.
  rewrite all_pages_take by exact Hsize.
  apply take_ge.
  pose proof (ceil_div_spec (Z.of_nat (length spots)) size ltac:(lia))
    as [Hlo Hhi].
  nia.
Qed.

Lemma pages_cover_the_result_witness :
  (1 ≤ 1)%Z ∧ all_pages [spot_a; spot_a; spot_a] 1 3 = [spot_a; spot_a; spot_a].
Proof.
  assert (H : (1 ≤ 1)%Z) by lia.
  split; [exact H|].
  exact (pages_cover_the_result [spot_a; spot_a; spot_a] 1 H).
Defined.

(** X19.  For a page number and a page size of at least 1: every page
    before the last one holds exactly [size] spots, the last page holds the
    rest, which is at least one spot and at most [size], and every page
    after the last one is empty. *)
Theorem page_lengths (spots : list Spot.t) (page size : Z) :
  (1 ≤ page)%Z → (1 ≤ size)%Z →
  let r := paginate spots page size in
  let pages := Pagination.pages (SpotsPage.pagination r) in
  let total := Pagination.total (SpotsPage.pagination r) in
  let n := Z.of_nat (length (SpotsPage.spots r)) in
  ((page < pages)%Z → n = size)
  ∧ (page = pages → n = (total - (pages - 1) * size)%Z ∧ (1 ≤ n ≤ size)%Z)
  ∧ ((pages < page)%Z → n = 0%Z).
Proof.
  intros Hpage Hsize r pages total n. subst r pages total n.
  unfold paginate, slice. cbn [SpotsPage.spots SpotsPage.pagination
    Pagination.pages Pagination.total].
  rewrite length_take, length_drop.
  pose proof (ceil_div_spec (Z.of_nat (length spots)) size ltac:(lia))
    as [Hlo Hhi].
  set (pages := ceil_div (Z.of_nat (length spots)) size) in *.
  repeat apply conj; intros Hp; try split; nia.
Qed.

Lemma page_lengths_witness :
  (1 ≤ 2)%Z ∧ (1 ≤ 2)%Z
  ∧ Z.of_nat (length (SpotsPage.spots
                        (paginate [spot_a; spot_a; spot_a] 2 2))) = 1%Z.
Proof.
  assert (H1 : (1 ≤ 2)%Z) by lia.
  split; [exact H1|]. split; [exact H1|].
  destruct (page_lengths [spot_a; spot_a; spot_a] 2 2 H1 H1) as (_ & Hlast & _).
  exact (proj1 (Hlast eq_refl)).
Defined.

(** ** What the search returns *)

Lemma location_filter_kept raises (search : ParkingSpotSearch.t) (spot : Spot.t) :
  location_filter raises search spot = Some false →
  ∀ lat lon radius,
    ParkingSpotSearch.latitude search = Some lat →
    ParkingSpotSearch.longitude search = Some lon →
    ParkingSpotSearch.radius search = Some radius →
    lat ≠ 0%R → lon ≠ 0%R → radius ≠ 0%R →
    ¬ (radius
       < calculate_distance lat lon (Spot.latitude spot) (Spot.longitude spot))%R.
Proof.
  unfold location_filter. intros Hf lat lon radius Hlat Hlon Hrad Hla Hlo Hr.
  rewrite Hlat, Hlon, Hrad in Hf.
  rewrite !truthy_nonzero in Hf by assumption. cbn [andb] in Hf.
  unfold try_calculate_distance in Hf.
  destruct (raises lat lon _ _); [discriminate|]. cbn in Hf.
  injection Hf as Hf. by apply bool_decide_eq_false in Hf.
Qed.

Lemma location_filter_not_dropped raises (search : ParkingSpotSearch.t)
    (spot : Spot.t) :
  (∀ lat lon radius,
     ParkingSpotSearch.latitude search = Some lat →
     ParkingSpotSearch.longitude search = Some lon →
     ParkingSpotSearch.radius search = Some radius →
     lat ≠ 0%R → lon ≠ 0%R → radius ≠ 0%R →
     ¬ (radius
        < calculate_distance lat lon (Spot.latitude spot) (Spot.longitude spot))%R) →
  location_filter raises search spot ≠ Some true.
Proof.
  unfold location_filter, truthy. intros Hpass.
  destruct (ParkingSpotSearch.latitude search) as [lat|]; [|discriminate].
  destruct (ParkingSpotSearch.longitude search) as [lon|];
    [|rewrite andb_false_r; discriminate].
  destruct (ParkingSpotSearch.radius search) as [radius|];
    [|rewrite andb_false_r; discriminate].
  destruct (decide (lat = 0%R)) as [->|Hla];
    [rewrite bool_decide_eq_false_2 by tauto; discriminate|].
  destruct (decide (lon = 0%R)) as [->|Hlo];
    [rewrite (bool_decide_eq_false_2 (0%R ≠ 0%R)) by tauto;
     rewrite andb_false_r; discriminate|].
  destruct (decide (radius = 0%R)) as [->|Hr];
    [rewrite (bool_decide_eq_false_2 (0%R ≠ 0%R)) by tauto;
     rewrite andb_false_r; discriminate|].
  rewrite !bool_decide_eq_true_2 by assumption. cbn [andb].
  unfold try_calculate_distance.
  destruct (raises lat lon _ _); [discriminate|]. cbn.
  intros [= Hd]. apply bool_decide_eq_true in Hd.
  by apply (Hpass lat lon radius).
Qed.

Lemma price_filter_false (search : ParkingSpotSearch.t) (spot : Spot.t) :
  price_filter search spot = false
  ↔ ∀ max_price,
      ParkingSpotSearch.max_price search = Some max_price →
      max_price ≠ 0%R → ¬ (max_price < Spot.hourly_rate spot)%R.
Proof.
  unfold price_filter, truthy.
  destruct (ParkingSpotSearch.max_price search) as [max_price|];
    [|split; [intros _ ? [=] | reflexivity]].
  rewrite andb_false_iff, !bool_decide_eq_false. split.
  - intros H ? [= <-] Hnz. destruct H as [H|H]; [tauto | exact H].
  - intros H. destruct (decide (max_price = 0%R)) as [->|Hnz]; [tauto|].
    right. by apply H.
Qed.

Lemma vehicle_size_filter_false (search : ParkingSpotSearch.t) (spot : Spot.t) :
  vehicle_size_filter search spot = false
  ↔ ∀ vehicle_size,
      ParkingSpotSearch.vehicle_size search = Some vehicle_size →
      Spot.max_vehicle_size spot = vehicle_size.
Proof.
  unfold vehicle_size_filter.
  destruct (ParkingSpotSearch.vehicle_size search) as [v|];
    [|split; [intros _ ? [=] | reflexivity]].
  rewrite bool_decide_eq_false. split.
  - intros H ? [= <-]. by apply dec_stable.
  - intros H Hne. apply Hne. by apply H.
Qed.

Lemma time_filter_false (search : ParkingSpotSearch.t) (spot : Spot.t) :
  time_filter search spot = Some false
  ↔ ∀ start_time end_time,
      ParkingSpotSearch.start_time search = Some start_time →
      ParkingSpotSearch.end_time search = Some end_time →
      DateTime.is_aware start_time = true
      ∧ DateTime.is_aware end_time = true
      ∧ (Spot.availability_start spot ≤ DateTime.instant start_time)%Z
      ∧ (DateTime.instant end_time ≤ Spot.availability_end spot)%Z.
Proof.
  unfold time_filter.
  destruct (ParkingSpotSearch.start_time search) as [s|];
    [|split; [intros _ ? ? [=] | reflexivity]].
  destruct (ParkingSpotSearch.end_time search) as [e|];
    [|split; [intros _ ? ? _ [=] | reflexivity]].
  split.
  - intros H ? ? [= <-] [= <-].
    destruct s as [s|s]; [discriminate|]. cbn in H.
    destruct (s <? Spot.availability_start spot)%Z eqn:H1; [discriminate|].
    destruct e as [e|e]; [discriminate|]. cbn in H.
    injection H as H2. apply Z.ltb_ge in H1, H2. cbn. done.
  - intros H. destruct (H s e eq_refl eq_refl) as (Hs & He & H1 & H2).
    destruct s as [s|s]; [discriminate|].
    destruct e as [e|e]; [discriminate|]. cbn in *.
    apply Z.ltb_ge in H1, H2. rewrite H1. cbn. by rewrite H2.
Qed.

Lemma spot_matches_passes raises (search : ParkingSpotSearch.t) (spot : Spot.t) :
  spot_matches raises search spot = Some true → passes search spot.
Proof.
  intros H. apply spot_matches_filters in H as (Hloc & Hprice & Hsize & Htime).
  split; [by apply (location_filter_kept raises)|].
  split; [by apply price_filter_false|].
  split; [by apply vehicle_size_filter_false | by apply time_filter_false].
Qed.

Lemma passes_spot_matches raises (search : ParkingSpotSearch.t) (spot : Spot.t) :
  passes search spot →
  is_Some (spot_matches raises search spot) →
  spot_matches raises search spot = Some true.
Proof.
  intros (Hloc & Hprice & Hsize & Htime) Hsome.
  apply (location_filter_not_dropped raises) in Hloc.
  apply price_filter_false in Hprice.
  apply vehicle_size_filter_false in Hsize.
  apply time_filter_false in Htime.
  unfold spot_matches in *. rewrite Hprice, Hsize, Htime in *.
  destruct (location_filter raises search spot) as [[]|]; cbn in *;
    [done | reflexivity | by destruct Hsome].
Qed.

Lemma elem_of_slice {A} (l : list A) (start stop : Z) (x : A) :
  x ∈ slice l start stop → x ∈ l.
Proof.
  unfold slice. intros Hin.
  apply subseteq_take in Hin. by apply subseteq_drop in Hin.
Qed.

Lemma filter_spots_elem raises db search (filtered : list Spot.t) (spot : Spot.t) :
  filter_spots raises search (FirebaseService.get_available_parking_spots db)
  = Some filtered →
  spot ∈ filtered
  ↔ (∃ k, parking_spots db !! k = Some spot)
    ∧ Spot.is_available spot = true
    ∧ passes search spot.
Proof.
  intros Hloop. apply filter_spots_Some in Hloop as [-> Hall].
  unfold FirebaseService.get_available_parking_spots in *.
  rewrite !list_elem_of_filter, elem_of_documents. split.
  - intros (Hmatch & Hav & Hdoc).
    split; [exact Hdoc|]. split; [exact Hav|].
    by apply (spot_matches_passes raises).
  - intros (Hdoc & Hav & Hpass). split; [|done].
    apply passes_spot_matches; [exact Hpass|]. apply Hall.
    apply list_elem_of_filter. split; [exact Hav|].
    by apply elem_of_documents.
Qed.

(** X20.  Whenever the filter loop completes, a spot is kept by it
    exactly when it is an available document of the store that passes
    every test whose parameters are supplied (the location and price tests
    only for values that are not zero, dropping what is farther or
    dearer; the vehicle size by exact match; the time window by
    containment, on aware datetimes); and every spot on a page that
    [get_parking_spots] returns is such a spot. *)
Theorem search_results
    (raises : R → R → R → R → bool) (db : Store)
    (search : ParkingSpotSearch.t) (page size : Z) :
  (∀ filtered,
     apply_search_filters raises (Some search)
       (FirebaseService.get_available_parking_spots db) = Some filtered →
     ∀ spot, spot ∈ filtered
             ↔ (∃ k, parking_spots db !! k = Some spot)
               ∧ Spot.is_available spot = true
               ∧ passes search spot)
  ∧ (∀ r spot,
       get_parking_spots raises db (Some search) page size = APIResponse r →
       spot ∈ SpotsPage.spots r →
       (∃ k, parking_spots db !! k = Some spot)
       ∧ Spot.is_available spot = true
       ∧ passes search spot).
Proof.
  split.
  - intros filtered Hloop spot. by apply (filter_spots_elem raises).
  - intros r spot Hr Hin. unfold get_parking_spots in Hr.
    destruct (negb _); [discriminate|].
    destruct (apply_search_filters raises (Some search) _) as [filtered|]
      eqn:Hloop; [|discriminate].
    injection Hr as <-. cbn in Hin. apply elem_of_slice in Hin.
    by apply (filter_spots_elem raises db search filtered).
Qed.

Lemma search_results_witness :
  get_parking_spots never_raises db_a (Some search_compact_window) 1 20
  = APIResponse (SpotsPage.mk [] (Pagination.mk 0 1 20 0))
  ∧ ¬ passes search_compact_window spot_a.
Proof.
  split; [reflexivity|].
  intros Hpass.
  destruct (search_results never_raises db_a search_compact_window 1 20)
    as [Hiff _].
  assert (Hin : spot_a ∈ @nil Spot.t).
  { apply (Hiff [] eq_refl).
    split; [exists "spot-a"; apply lookup_singleton_eq|].
    split; [reflexivity | exact Hpass]. }
  by apply elem_of_nil in Hin.
Defined.

(** X21.  In a store whose documents carry their keys as ids, a spot that
    a completed search keeps for a time window can be booked for that
    window: the booking request that names the spot's [id] and the
    searched start and end is accepted. *)
Theorem search_result_is_bookable
    (raises : R → R → R → R → bool) (db : Store)
    (search : ParkingSpotSearch.t) (filtered : list Spot.t) (spot : Spot.t)
    (start_time end_time : DateTime.t) (booking_data : BookingCreate.t)
    (doc_ref : string) (utcnow : datetime) :
  ids_match_keys db →
  ParkingSpotSearch.start_time search = Some start_time →
  ParkingSpotSearch.end_time search = Some end_time →
  apply_search_filters raises (Some search)
    (FirebaseService.get_available_parking_spots db) = Some filtered →
  spot ∈ filtered →
  BookingCreate.spot_id booking_data = Spot.id spot →
  BookingCreate.start_time booking_data = start_time →
  BookingCreate.end_time booking_data = end_time →
  ∃ b, create_booking_request db (BookingCreate.finder_id booking_data)
         booking_data doc_ref utcnow
       = (APIResponse doc_ref, with_booking db doc_ref b)
       ∧ Booking.status b = pending
       ∧ Booking.spot_id b = Spot.id spot.
Proof.
  intros (_ & Hspots & _) Hs He Hloop Hin Hid Hst Hen.
  apply (filter_spots_elem raises db search filtered spot Hloop) in Hin
    as ((k & Hk) & Hav & (_ & _ & _ & Htime)).
  destruct (Htime start_time end_time Hs He) as (Has & Hae & Hge & Hle).
  assert (Hkey : Spot.id spot = k) by by apply Hspots.
  eexists. split.
  - apply create_booking_request_ok with (spot := spot).
    split; [reflexivity|]. split; [by rewrite Hid, Hkey|].
    split; [exact Hav|]. by rewrite Hst, Hen.
  - split; [reflexivity | exact Hid].
Qed.

Lemma ids_match_keys_db_a : ids_match_keys db_a.
Proof.
  repeat split; intros k x Hx; cbn in Hx.
  - by rewrite lookup_empty in Hx.
  - apply lookup_singleton_Some in Hx as [<- <-]. reflexivity.
  - by rewrite lookup_empty in Hx.
Qed.

Lemma search_result_is_bookable_witness :
  ids_match_keys db_a
  ∧ apply_search_filters never_raises (Some search_window)
      (FirebaseService.get_available_parking_spots db_a) = Some [spot_a]
  ∧ ∃ b, create_booking_request db_a "finder-1" request_a "booking-1" 5
         = (APIResponse "booking-1", with_booking db_a "booking-1" b)
         ∧ Booking.status b = pending.
Proof.
  assert (H1 : ids_match_keys db_a) by exact ids_match_keys_db_a.
  assert (H2 : apply_search_filters never_raises (Some search_window)
                 (FirebaseService.get_available_parking_spots db_a)
               = Some [spot_a]) by reflexivity.
  split; [exact H1|]. split; [exact H2|].
  destruct (search_result_is_bookable never_raises db_a search_window
              [spot_a] spot_a
              (DateTime.Aware 3600000000) (DateTime.Aware 10800000000)
              request_a "booking-1" 5
              H1 eq_refl eq_refl H2 (list_elem_of_here _ _)
              eq_refl eq_refl eq_refl)
    as (b & Hr & Hst & _).
  exists b. split; [exact Hr | exact Hst].
Defined.

(** ** Bounds on the distance *)

Lemma atan_nonneg (x : R) : (0 <= x)%R → (0 <= atan x)%R.
Proof.
  intros [Hpos | <-].
  - left. rewrite <- atan_0. by apply atan_increasing.
  - rewrite atan_0. lra.
Qed.

Lemma atan2_first_quadrant (y x : R) :
  (0 <= y)%R → (0 <= x)%R → (0 <= atan2 y x <= PI / 2)%R.
Proof.
  intros Hy Hx. unfold atan2. pose proof PI_RGT_0.
  destruct (decide (0 < x)%R) as [Hpos|Hnpos].
  - split.
    + apply atan_nonneg. apply Rmult_le_pos; [exact Hy|].
      left. by apply Rinv_0_lt_compat.
    + left. apply atan_bound.
  - rewrite decide_False by lra.
    destruct (decide (0 < y)%R); [lra|].
    rewrite decide_False by lra. lra.
Qed.

(** X22.  The distance between any two points is at least 0 and at most
    [6371000 · PI], half the circumference of the sphere; this holds for
    all arguments, also for latitudes and longitudes outside their
    ranges. *)
Theorem calculate_distance_bounds (lat1 lon1 lat2 lon2 : R) :
  (0 <= calculate_distance lat1 lon1 lat2 lon2 <= 6371000 * PI)%R.
Proof.
  rewrite calculate_distance_unfold.
  pose proof (haversine_a_range lat1 lon1 lat2 lon2) as [Hlo Hhi].
  pose proof (atan2_first_quadrant
                (sqrt (haversine_a lat1 lon1 lat2 lon2))
                (sqrt (1 - haversine_a lat1 lon1 lat2 lon2))
                (sqrt_pos _) (sqrt_pos _)) as [H0 H1].
  split; nra.
Qed.

(** ** The nearby search and the location filter *)

Section filter_sort.
Context {A : Type} (key : A → R) (P : A → Prop) `{!∀ x, Decision (P x)}.

Lemma insert_by_first (x : A) (l : list A) :
  Forall (key_le key x) l → insert_by key x l = x :: l.
Proof.
  destruct 1 as [|y l Hy _]; [reflexivity|]. cbn [insert_by].
  by rewrite decide_True.
Qed.

Lemma filter_insert_by (x : A) (l : list A) :
  StronglySorted (key_le key) l →
  filter P (insert_by key x l)
  = if decide (P x) then insert_by key x (filter P l) else filter P l.
Proof.
  induction 1 as [|y l Hl IH Hy]; cbn [insert_by].
  - rewrite filter_cons, filter_nil. by destruct (decide (P x)).
  - destruct (decide (key x <= key y)%R) as [Hxy|Hxy].
    + rewrite filter_cons. destruct (decide (P x)) as [Hx|Hx]; [|reflexivity].
      symmetry. apply insert_by_first.
      apply Forall_forall. intros z Hz.
      apply list_elem_of_filter in Hz as [_ Hz].
      apply elem_of_cons in Hz as [->|Hz]; [exact Hxy|].
      rewrite Forall_forall in Hy. specialize (Hy z Hz).
      unfold key_le in *. lra.
    + rewrite !filter_cons, IH.
      destruct (decide (P y)) as [Hpy|Hpy], (decide (P x)) as [Hx|Hx];
        try reflexivity.
      cbn [insert_by]. by rewrite decide_False.
Qed.

Lemma filter_sort_by (l : list A) :
  filter P (sort_by key l) = sort_by key (filter P l).
Proof.
  induction l as [|x l IH]; [reflexivity|]. cbn [sort_by].
  rewrite filter_insert_by by apply sort_by_sorted.
  rewrite filter_cons, IH. by destruct (decide (P x)).
Qed.

End filter_sort.

Lemma filter_annotate_le latitude longitude (bound : R) (spots : list Spot.t) :
  filter (λ ns, (NearbySpot.distance ns <= bound)%R)
    (annotate latitude longitude <$> spots)
  = annotate latitude longitude
    <$> filter (λ spot, (distance_of latitude longitude spot <= bound)%R) spots.
Proof.
  induction spots as [|spot spots IH]; [reflexivity|].
  rewrite fmap_cons, !filter_cons. cbn [annotate NearbySpot.distance].
  case_decide; [rewrite fmap_cons|]; rewrite IH; reflexivity.
Qed.

(** X23.  Shrinking the radius of the nearby search keeps exactly the
    results within the smaller radius, in the same order: the result for a
    smaller radius is the result for a larger one with the farther spots
    removed. *)
Theorem nearby_smaller_radius
    (latitude longitude radius1 radius2 : R) (spots : list Spot.t) :
  (radius1 <= radius2)%R →
  nearby latitude longitude radius1 spots
  = filter (λ ns, (NearbySpot.distance ns <= radius1)%R)
      (nearby latitude longitude radius2 spots).
Proof.
  intros Hle. unfold nearby.
  rewrite !filter_by_distance_eq, filter_sort_by, filter_annotate_le.
  rewrite list_filter_filter. f_equal. f_equal.
  apply list_filter_iff. intros spot. split; [|tauto].
  intros H. split; [exact H | lra].
Qed.

Lemma nearby_smaller_radius_witness :
  (100 <= 200)%R
  ∧ nearby 0 0 100 [spot_a]
    = filter (λ ns, (NearbySpot.distance ns <= 100)%R) (nearby 0 0 200 [spot_a]).
Proof.
  assert (H : (100 <= 200)%R) by lra.
  split; [exact H|].
  exact (nearby_smaller_radius 0 0 100 200 [spot_a] H).
Defined.

(** ** Switching a spot off *)

(** X25.  When the owner updates a spot with [is_available = false], the
    spot leaves the list that the search and the nearby search start from,
    stays among the owner's own spots, and every booking request for it is
    refused with 400; the bookings already made are not touched. *)
Theorem unavailable_spot_is_hidden
    (db : Store) (spot_id : string) (existing_spot : Spot.t)
    (spot_update : ParkingSpotUpdate.t) (utcnow : datetime) :
  parking_spots db !! spot_id = Some existing_spot →
  ParkingSpotUpdate.is_available spot_update = Some false →
  let owner := Spot.owner_id existing_spot in
  let r := update_parking_spot db spot_id spot_update owner utcnow in
  ∃ s,
    r.1 = APIResponse (Some s)
    ∧ parking_spots r.2 !! spot_id = Some s
    ∧ bookings r.2 = bookings db
    ∧ (s ∉ FirebaseService.get_available_parking_spots r.2)
    ∧ s ∈ FirebaseService.get_parking_spots_by_owner r.2 owner
    ∧ ∀ booking_data doc_ref utcnow',
        BookingCreate.spot_id booking_data = spot_id →
        create_booking_request r.2 (BookingCreate.finder_id booking_data)
          booking_data doc_ref utcnow'
        = (HTTPException HTTP_400_BAD_REQUEST, r.2).
Proof.
  intros Hs Hoff owner r. subst r owner.
  unfold update_parking_spot. handlers. rewrite Hs.
  rewrite decide_False by (intros H; apply H; reflexivity).
  cbn. rewrite lookup_insert_eq, Hoff.
  eexists. split; [reflexivity|]. split; [reflexivity|].
  split; [reflexivity|]. repeat apply conj.
  - unfold FirebaseService.get_available_parking_spots.
    intros Hin. apply list_elem_of_filter in Hin as [Hav _]. discriminate.
  - unfold FirebaseService.get_parking_spots_by_owner.
    apply list_elem_of_filter. split; [reflexivity|].
    apply elem_of_documents. exists spot_id. cbn. apply lookup_insert_eq.
  - intros booking_data doc_ref utcnow' Hid.
    rewrite decide_False by (intros H; apply H; reflexivity).
    cbn. rewrite Hid, lookup_insert_eq. reflexivity.
Qed.

Lemma unavailable_spot_is_hidden_witness :
  parking_spots db_a !! "spot-a" = Some spot_a
  ∧ ParkingSpotUpdate.is_available hide_update = Some false
  ∧ create_booking_request
      (update_parking_spot db_a "spot-a" hide_update "owner-1" 4).2
      "finder-1" request_a "booking-1" 5
    = (HTTPException HTTP_400_BAD_REQUEST,
       (update_parking_spot db_a "spot-a" hide_update "owner-1" 4).2).
Proof.
  assert (H1 : parking_spots db_a !! "spot-a" = Some spot_a)
    by apply lookup_singleton_eq.
  assert (H2 : ParkingSpotUpdate.is_available hide_update = Some false)
    by reflexivity.
  split; [exact H1|]. split; [exact H2|].
  destruct (unavailable_spot_is_hidden db_a "spot-a" spot_a hide_update 4
              H1 H2) as (s & _ & _ & _ & _ & _ & Hcreate).
  exact (Hcreate request_a "booking-1" 5%Z eq_refl).
Defined.
